(** * The timeseries resampler of [frequenz.sdk.timeseries._resampling]

    A shallow embedding of [_resampling.py]: the default resampling function
    [average], the window of relevant samples ([_ResamplingHelper]), the
    per-source helper that feeds the window and sends the resampled data
    ([_StreamingHelper]) and the [Resampler] that owns the registry and the
    timer loop; and of [TimeoutParam] and [LastResponse] of
    [battery_status/utils.py].

    Modelling choices, all of them visible in the definitions below:
    - a Python [float] is an IEEE 754 double, the primitive [float] of the
      kernel with its rounding, its infinities and NaN.  [sum] adds from
      the left, one rounding per addition (CPython up to 3.11);
    - a [datetime] is a whole number of microseconds since [datetime.min],
      and a [timedelta] a whole number of microseconds; [timedelta] and
      the subtraction of a [timedelta] from a [datetime] round and raise as
      CPython's do.  All datetimes are of one kind (aware, in UTC, as the
      timer yields them), so comparing them never raises;
    - a Python exception is a value of [Exn]; a call that may raise returns
      a [Res];
    - objects are records and a method returns the updated object;
    - calls of the resampling function and of the sinks are observable, so
      every method that can make one returns the list of [Event]s it made;
    - a [Source] is the identity of an async iterator.  What the iterator
      does when a receiving task pulls from it is a [SourceEvent], given
      from outside: the state of the iterator is not part of the model, and
      the statements hold for every sequence of events, those of an
      exhausted iterator among them;
    - a [dict] keeps its items in the order of insertion;
    - [Resampler.resample] is suspended while it waits for the timer and
      while it awaits [asyncio.gather]; what other tasks do with the
      [Resampler] in the meantime is given to it as lists of [Call]s.  The
      helpers of one [gather] run one after the other in the order of the
      dictionary: their first steps are scheduled back to back, and each
      helper touches only its own window and its own sink;
    - [TimeoutParam] and [LastResponse] keep times in seconds as rationals:
      the durations they create are whole seconds. *)

From Stdlib Require Import ZArith QArith Lqa Floats.
From stdpp Require Import gmap list sorting.

Open Scope Z_scope.

(** ** Exceptions *)

(** The identity of a source (an async iterator is hashed by identity). *)
Definition Source : Type := nat.

(** The exceptions the module raises or passes on.  [OtherError] stands for
    any other subclass of [Exception], [OtherBaseException] for an exception
    that derives from [BaseException] but neither from [Exception] nor from
    [asyncio.CancelledError], [KeyboardInterrupt] and [SystemExit] apart:
    those two asyncio passes on to the caller of the event loop instead of
    keeping them as the result of the task. *)
Inductive Exn : Type :=
| AssertionError
| ZeroDivisionError
| IndexError
| ValueError
| OverflowError
| CancelledError
| InvalidStateError
| SourceStoppedError (source : Source)
| OtherError (code : nat)
| OtherBaseException (code : nat).

#[global] Instance Exn_eq_dec : EqDecision Exn.
Proof. solve_decision. Defined.

(** [isinstance(e, (Exception, asyncio.CancelledError))]. *)
Definition is_exception (e : Exn) : bool :=
  match e with
  | OtherBaseException _ => false
  | _ => true
  end.

(** The outcome of a call: a value, or a raised exception. *)
Inductive Res (A : Type) : Type :=
| Ok (a : A)
| Raise (e : Exn).
Arguments Ok {A} a.
Arguments Raise {A} e.

(** ** Floats and times *)

(** [math.isnan]. *)
Definition isnan (x : float) : bool := PrimFloat.is_nan x.

(** [float(n)] for an [int] that is a length. *)
Definition float_of_len (n : nat) : float := of_uint63 (Uint63.of_Z (Z.of_nat n)).

(** The integer part of [m * 2^e], for [m] positive. *)
Definition trunc (m e : Z) : Z :=
  if decide (0 ≤ e) then m * 2 ^ e else Z.shiftr m (- e).

(** The integer nearest to [m * 2^e], for [m] positive; halfway between
    two integers, the even one. *)
Definition round_half_even (m e : Z) : Z :=
  if decide (0 ≤ e) then m * 2 ^ e
  else
    let q := Z.shiftr m (- e) in
    let r := m - Z.shiftl q (- e) in
    let half := 2 ^ (- e - 1) in
    if decide (r < half) then q
    else if decide (half < r) then q + 1
    else if Z.even q then q else q + 1.

(** The microseconds in the fractional part [fracpart] of a number of
    seconds: the double product with [1e6], rounded to an integer. *)
Definition microseconds (fracpart : float) : Z :=
  match Prim2SF (fracpart * 1000000)%float with
  | S754_finite _ m e => round_half_even (Z.pos m) e
  | _ => 0
  end.

(** [timedelta.min] and [timedelta.max], in microseconds. *)
Definition timedelta_min : Z := - 999999999 * 86400 * 1000000.
Definition timedelta_max : Z := 1000000000 * 86400 * 1000000 - 1.

(** [timedelta(seconds=seconds)], in microseconds.  The integer part of
    [seconds] is taken exactly, the fractional part goes through
    [microseconds]; NaN raises [ValueError], an infinity and a duration of
    more than 999999999 days raise [OverflowError]. *)
Definition timedelta (seconds : float) : Res Z :=
  match Prim2SF seconds with
  | S754_nan => Raise ValueError
  | S754_infinity _ => Raise OverflowError
  | S754_zero _ => Ok 0
  | S754_finite s m e =>
      let intpart := trunc (Z.pos m) e in
      let fracpart :=
        if decide (0 ≤ e) then 0%float
        else (abs seconds - of_uint63 (Uint63.of_Z intpart))%float in
      let us := intpart * 1000000 + microseconds fracpart in
      let us := if s then - us else us in
      if decide (timedelta_min ≤ us ≤ timedelta_max) then Ok us
      else Raise OverflowError
  end.

(** [datetime.max], in microseconds since [datetime.min]. *)
Definition datetime_max : Z := 315537897599999999.

(** [timestamp - delta] for a [datetime] and a [timedelta]: a result
    outside of [datetime.min .. datetime.max] raises [OverflowError]. *)
Definition datetime_sub (timestamp delta : Z) : Res Z :=
  if decide (0 ≤ timestamp - delta ≤ datetime_max) then Ok (timestamp - delta)
  else Raise OverflowError.

(** ** Samples, sinks, resampling functions *)

(** [frequenz.sdk.timeseries.Sample]: a timestamp and an optional value. *)
Record Sample : Type := mkSample {
  timestamp : Z;
  value : option float;
}.

(** [Sink]: an async callable taking a sample; it may raise. *)
Definition Sink : Type := Sample → Res unit.

(** [ResamplingFunction]: from the relevant samples and the period to the
    new value; it may raise. *)
Definition ResamplingFunction : Type := list Sample → float → Res float.

(** The observable calls. *)
Inductive Event : Type :=
| ResamplingFunctionCall (input_samples : list Sample) (resampling_period_s : float)
| SinkCall (source : Source) (sample : Sample).

(** ** [average] *)

(** [sum(values)]: additions from the left, starting at [0]. *)
Definition sum (values : list float) : float :=
  foldl PrimFloat.add 0%float values.

(** [x / n] for a float or the int [0] as [x] and a length [n]: division by
    zero raises. *)
Definition truediv (x : float) (n : nat) : Res float :=
  match n with
  | O => Raise ZeroDivisionError
  | S _ => Ok (x / float_of_len n)%float
  end.

Definition average (samples : list Sample) (resampling_period_s : float) : Res float :=
  if decide (0 < length samples)%nat then
    let values := omap value samples in
    truediv (sum values) (length values)
  else Raise AssertionError.

(** ** [_ResamplingHelper] *)

Module _ResamplingHelper.

Record t : Type := mk {
  _resampling_period_s : float;
  _max_data_age_in_periods : float;
  _buffer : list Sample;
  _resampling_function : ResamplingFunction;
}.

(** [__init__]: the buffer starts empty. *)
Definition __init__ (resampling_period_s max_data_age_in_periods : float)
    (resampling_function : ResamplingFunction) : t :=
  {| _resampling_period_s := resampling_period_s;
     _max_data_age_in_periods := max_data_age_in_periods;
     _buffer := [];
     _resampling_function := resampling_function |}.

Definition with_buffer (self : t) (buffer : list Sample) : t :=
  {| _resampling_period_s := _resampling_period_s self;
     _max_data_age_in_periods := _max_data_age_in_periods self;
     _buffer := buffer;
     _resampling_function := _resampling_function self |}.

(** [self._buffer.append(sample)]. *)
Definition add_sample (self : t) (sample : Sample) : t :=
  with_buffer self (_buffer self ++ [sample]).

(** The [while self._buffer] loop: look at the oldest sample, return when
    it is newer than the threshold, else pop it and go on. *)
Fixpoint popleft_outdated (threshold : Z) (buffer : list Sample) : list Sample :=
  match buffer with
  | [] => []
  | sample :: rest =>
      if decide (threshold < timestamp sample) then buffer
      else popleft_outdated threshold rest
  end.

Definition _remove_outdated_samples (self : t) (threshold : Z) : t :=
  with_buffer self (popleft_outdated threshold (_buffer self)).

(** [timedelta(seconds=self._max_data_age_in_periods *
    self._resampling_period_s)]. *)
Definition max_data_age (self : t) : Res Z :=
  timedelta (_max_data_age_in_periods self * _resampling_period_s self)%float.

(** [timestamp - timedelta(...)], the threshold of [resample]. *)
Definition threshold_at (self : t) (timestamp : Z) : Res Z :=
  match max_data_age self with
  | Ok delta => datetime_sub timestamp delta
  | Raise e => Raise e
  end.

(** [resample]: the result, the helper with its outdated samples removed,
    and the calls of the resampling function that were made. *)
Definition resample (self : t) (timestamp : Z) : Res Sample * t * list Event :=
  match threshold_at self timestamp with
  | Raise e => (Raise e, self, [])
  | Ok threshold =>
      let self := _remove_outdated_samples self threshold in
      match _buffer self with
      | [] => (Ok (mkSample timestamp None), self, [])
      | _ :: _ =>
          let call :=
            ResamplingFunctionCall (_buffer self) (_resampling_period_s self) in
          match _resampling_function self (_buffer self) (_resampling_period_s self) with
          | Ok value => (Ok (mkSample timestamp (Some value)), self, [call])
          | Raise e => (Raise e, self, [call])
          end
      end
  end.

End _ResamplingHelper.

(** ** [_StreamingHelper] *)

(** The state of the [asyncio.Task] that runs [_receive_samples]. *)
Inductive Task : Type :=
| Pending
| Finished
| Failed (e : Exn)
| Cancelled.

(** [task.done()]. *)
Definition done (task : Task) : bool :=
  match task with
  | Pending => false
  | Finished | Failed _ | Cancelled => true
  end.

(** [task.exception()]: the exception the task ended with, or [None]; on a
    cancelled task the call itself raises [CancelledError], on a task that
    is not done [InvalidStateError]. *)
Definition exception (task : Task) : Res (option Exn) :=
  match task with
  | Pending => Raise InvalidStateError
  | Finished => Ok None
  | Failed e => Ok (Some e)
  | Cancelled => Raise CancelledError
  end.

(** What the source does when the receiving task asks it for the next
    sample: it yields one, ends, or raises. *)
Inductive SourceEvent : Type :=
| Yield (sample : Sample)
| StopAsyncIteration
| SourceRaises (e : Exn).

Module _StreamingHelper.

Record t : Type := mk {
  _helper : _ResamplingHelper.t;
  _source : Source;
  _sink : Sink;
  _receiving_task : Task;
}.

(** [__init__]: the receiving task is created, and is not done. *)
Definition __init__ (helper : _ResamplingHelper.t) (source : Source) (sink : Sink) : t :=
  {| _helper := helper; _source := source; _sink := sink;
     _receiving_task := Pending |}.

Definition with_helper (self : t) (helper : _ResamplingHelper.t) : t :=
  {| _helper := helper; _source := _source self; _sink := _sink self;
     _receiving_task := _receiving_task self |}.

Definition with_task (self : t) (task : Task) : t :=
  {| _helper := _helper self; _source := _source self; _sink := _sink self;
     _receiving_task := task |}.

(** Modelled from the spec: [cancel_and_await] of [frequenz.sdk.util.asyncio]
    is not among the sources.  The spec has [stop()] cancel the ingestion
    activity and wait for its termination; cancelling a task that is
    already done changes nothing. *)
Definition cancel_and_await (task : Task) : Task :=
  match task with
  | Pending => Cancelled
  | Finished | Failed _ | Cancelled => task
  end.

Definition stop (self : t) : t :=
  with_task self (cancel_and_await (_receiving_task self)).

(** One round of the [async for sample in self._source] loop of
    [_receive_samples], for what the source does in that round.  A task
    that is done pulls nothing from the source any more. *)
Definition _receive_samples (self : t) (ev : SourceEvent) : t :=
  match _receiving_task self with
  | Pending =>
      match ev with
      | Yield sample =>
          match value sample with
          | Some v =>
              if negb (isnan v)
              then with_helper self (_ResamplingHelper.add_sample (_helper self) sample)
              else self
          | None => self
          end
      | StopAsyncIteration => with_task self Finished
      | SourceRaises e => with_task self (Failed e)
      end
  | Finished | Failed _ | Cancelled => self
  end.

(** [resample]: the outcome of the call, the helper afterwards, and the
    calls of the resampling function and of the sink that were made. *)
Definition resample (self : t) (timestamp : Z) : Res unit * t * list Event :=
  if done (_receiving_task self) then
    match exception (_receiving_task self) with
    | Raise e => (Raise e, self, [])
    | Ok (Some recv_exception) => (Raise recv_exception, self, [])
    | Ok None => (Raise (SourceStoppedError (_source self)), self, [])
    end
  else
    match _ResamplingHelper.resample (_helper self) timestamp with
    | (Raise e, helper, calls) => (Raise e, with_helper self helper, calls)
    | (Ok sample, helper, calls) =>
        (_sink self sample, with_helper self helper,
         calls ++ [SinkCall (_source self) sample])
    end.

(** What happens to one helper between its creation and its removal: the
    event loop lets the receiving task pull from the source, the
    [Resampler] calls [resample], or it calls [stop]. *)
Inductive Activity : Type :=
| SourcePulled (ev : SourceEvent)
| ResampleCalled (timestamp : Z)
| StopCalled.

Definition act (self : t) (a : Activity) : t * list Event :=
  match a with
  | SourcePulled ev => (_receive_samples self ev, [])
  | ResampleCalled timestamp =>
      let '(_, self, calls) := resample self timestamp in (self, calls)
  | StopCalled => (stop self, [])
  end.

(** The helper after a sequence of activities, and the calls made. *)
Fixpoint run (self : t) (activities : list Activity) : t * list Event :=
  match activities with
  | [] => (self, [])
  | a :: activities =>
      let '(self, calls) := act self a in
      let '(self, more) := run self activities in
      (self, calls ++ more)
  end.

End _StreamingHelper.

(** ** [dict] *)

(** A Python [dict] with sources as keys: its items in the order of
    insertion, no key twice. *)
Module dict.

Definition t (V : Type) : Type :=
  dsig (λ items : list (Source * V), NoDup items.*1).

Definition items {V : Type} (d : t V) : list (Source * V) := `d.

(** [list(d)], what iterating over [d] yields. *)
Definition keys {V : Type} (d : t V) : list Source := (items d).*1.

(** [list(d.values())]. *)
Definition values {V : Type} (d : t V) : list V := (items d).*2.

(** The value under [k] in a list of items. *)
Fixpoint assoc {V : Type} (k : Source) (items : list (Source * V)) : option V :=
  match items with
  | [] => None
  | (k', v) :: items => if decide (k' = k) then Some v else assoc k items
  end.

(** [d.get(k)]; [k in d] when it is not [None]. *)
#[global] Instance get {V : Type} : Lookup Source V (t V) :=
  λ k d, assoc k (items d).

(** [len(d)]. *)
#[global] Instance len {V : Type} : Size (t V) := λ d, length (items d).

(** [{}]. *)
#[global] Instance empty {V : Type} : Empty (t V) :=
  dexist [] (NoDup_nil_2 : NoDup ([] : list (Source * V)).*1).

(** The dictionaries below have no key twice. *)
Lemma keys_NoDup {V : Type} (d : t V) : NoDup (keys d).
Proof. exact (proj2_dsig d). Qed.

Lemma map_wf {V W : Type} (f : Source → V → W) (d : t V) :
  NoDup ((λ kv : Source * V, (kv.1, f kv.1 kv.2)) <$> items d).*1.
Proof.
  rewrite <- list_fmap_compose. apply keys_NoDup.
Qed.

Lemma delitem_wf {V : Type} (d : t V) (k : Source) :
  NoDup (filter (λ kv, kv.1 ≠ k) (items d)).*1.
Proof.
  apply (sublist_NoDup _ (keys d)); [apply keys_NoDup|].
  apply fmap_sublist, sublist_filter.
Qed.

Lemma setitem_wf {V : Type} (d : t V) (k : Source) (v : V) :
  k ∉ keys d → NoDup (items d ++ [(k, v)]).*1.
Proof.
  intros Hnew. rewrite fmap_app. apply NoDup_app.
  split; [apply keys_NoDup|]. split; [|apply NoDup_singleton].
  intros x Hx Hin. apply list_elem_of_singleton in Hin. by subst x.
Qed.

(** Every value replaced by [f] of its key and of itself, in place: what a
    method called on each value of [d] does to the objects it holds. *)
Definition map {V W : Type} (f : Source → V → W) (d : t V) : t W :=
  dexist ((λ kv : Source * V, (kv.1, f kv.1 kv.2)) <$> items d) (map_wf f d).

(** The value under [k], if there is one, replaced by [f] of it. *)
Definition alter {V : Type} (f : V → V) (k : Source) (d : t V) : t V :=
  map (λ k' v, if decide (k' = k) then f v else v) d.

(** [d[k] = v]: a new key goes to the end, the value of an old one is
    replaced where it is. *)
Definition setitem {V : Type} (d : t V) (k : Source) (v : V) : t V :=
  match decide (k ∈ keys d) with
  | left _ => alter (λ _, v) k d
  | right Hnew => dexist (items d ++ [(k, v)]) (setitem_wf d k v Hnew)
  end.

(** [del d[k]], for a key that [d] has. *)
Definition delitem {V : Type} (d : t V) (k : Source) : t V :=
  dexist (filter (λ kv, kv.1 ≠ k) (items d)) (delitem_wf d k).

End dict.

(** ** [Resampler] *)

(** How a call of [Resampler.resample] ends. *)
Inductive Outcome : Type :=
| Returns
| RaisesResamplingError (exceptions : gmap Source Exn)
| Raises (e : Exn).

(** What other tasks do with a [Resampler]: its user calls
    [add_timeseries], [remove_timeseries] or [stop], and the event loop
    lets the receiving task of the helper registered for [source] pull
    from its source. *)
Inductive Call : Type :=
| AddTimeseries (source : Source) (sink : Sink)
| RemoveTimeseries (source : Source)
| Stop
| ReceivingTask (source : Source) (ev : SourceEvent).

(** What other tasks do while one round of the loop of
    [Resampler.resample] is suspended: first while it waits for the tick,
    then while it awaits [asyncio.gather]. *)
Record Meanwhile : Type := mkMeanwhile {
  before_gather : list Call;
  during_gather : list Call;
}.

Module Resampler.

(** [_timer] holds the timestamps the timer will still yield, in order;
    the end of the list is a timer that was stopped. *)
Record t : Type := mk {
  _resampling_period_s : float;
  _max_data_age_in_periods : float;
  _resampling_function : ResamplingFunction;
  _resamplers : dict.t _StreamingHelper.t;
  _timer : list Z;
}.

(** [__init__]; [timer] is what [Timer(resampling_period_s)] will yield. *)
Definition __init__ (resampling_period_s : float)
    (resampling_function : ResamplingFunction)
    (max_data_age_in_periods : float) (timer : list Z) : t :=
  {| _resampling_period_s := resampling_period_s;
     _max_data_age_in_periods := max_data_age_in_periods;
     _resampling_function := resampling_function;
     _resamplers := ∅;
     _timer := timer |}.

Definition with_resamplers (self : t) (resamplers : dict.t _StreamingHelper.t) : t :=
  {| _resampling_period_s := _resampling_period_s self;
     _max_data_age_in_periods := _max_data_age_in_periods self;
     _resampling_function := _resampling_function self;
     _resamplers := resamplers;
     _timer := _timer self |}.

Definition with_timer (self : t) (timer : list Z) : t :=
  {| _resampling_period_s := _resampling_period_s self;
     _max_data_age_in_periods := _max_data_age_in_periods self;
     _resampling_function := _resampling_function self;
     _resamplers := _resamplers self;
     _timer := timer |}.

(** [stop]: every helper's [stop()]. *)
Definition stop (self : t) : t :=
  with_resamplers self (dict.map (λ _, _StreamingHelper.stop) (_resamplers self)).

Definition add_timeseries (self : t) (source : Source) (sink : Sink) : bool * t :=
  match _resamplers self !! source with
  | Some _ => (false, self)
  | None =>
      let resampler :=
        _StreamingHelper.__init__
          (_ResamplingHelper.__init__ (_resampling_period_s self)
             (_max_data_age_in_periods self) (_resampling_function self))
          source sink in
      (true, with_resamplers self (dict.setitem (_resamplers self) source resampler))
  end.

(** [del self._resamplers[source]] raises [KeyError] when the key is
    missing, which the method turns into [False]. *)
Definition remove_timeseries (self : t) (source : Source) : bool * t :=
  match _resamplers self !! source with
  | Some _ => (true, with_resamplers self (dict.delitem (_resamplers self) source))
  | None => (false, self)
  end.

(** The [Resampler] after a call made by another task. *)
Definition call (self : t) (c : Call) : t :=
  match c with
  | AddTimeseries source sink => (add_timeseries self source sink).2
  | RemoveTimeseries source => (remove_timeseries self source).2
  | Stop => stop self
  | ReceivingTask source ev =>
      with_resamplers self
        (dict.alter (λ r, _StreamingHelper._receive_samples r ev) source
           (_resamplers self))
  end.

(** [asyncio.gather] with [return_exceptions=True] over
    [r.resample(timer_timestamp) for r in self._resamplers.values()]: the
    results in the order of the dictionary, the helpers afterwards, and
    the calls made. *)
Definition gather (resamplers : dict.t _StreamingHelper.t) (timer_timestamp : Z)
    : list (Res unit) * dict.t _StreamingHelper.t * list Event :=
  let calls :=
    (λ r, _StreamingHelper.resample r timer_timestamp) <$> dict.values resamplers in
  (calls.*1.*1,
   dict.map (λ _ r, (_StreamingHelper.resample r timer_timestamp).1.2) resamplers,
   concat calls.*2).

(** The dictionary comprehension
    [{source: results[i] for i, source in enumerate(self._resamplers)
      if isinstance(results[i], (Exception, asyncio.CancelledError))}].
    [collect] is one round of it, for the pair [(i, source)] that
    [enumerate] yields: [results[i]] raises [IndexError] past the end of
    the list, and what is found there is stored under [source] when it is
    an [Exception] or a [CancelledError]. *)
Definition collect (results : list (Res unit)) (acc : Res (gmap Source Exn))
    (entry : nat * Source) : Res (gmap Source Exn) :=
  let '(i, source) := entry in
  match acc with
  | Raise e => Raise e
  | Ok exceptions =>
      match results !! i with
      | None => Raise IndexError
      | Some (Raise e) =>
          if is_exception e then Ok (<[source := e]> exceptions) else Ok exceptions
      | Some (Ok _) => Ok exceptions
      end
  end.

Definition exceptions_of (sources : list Source) (results : list (Res unit))
    : Res (gmap Source Exn) :=
  foldl (collect results) (Ok ∅) (imap pair sources).

(** One round of the loop, from the tick [timer_timestamp] to the
    dictionary of exceptions.  The results of [gather] are those of the
    helpers registered when it is called; the comprehension reads
    [self._resamplers] again, after what other tasks did in the
    meantime. *)
Definition tick (self : t) (timer_timestamp : Z) (others : Meanwhile)
    : Res (gmap Source Exn) * t * list Event :=
  let self := foldl call self (before_gather others) in
  let '(results, resamplers, calls) := gather (_resamplers self) timer_timestamp in
  let self := foldl call (with_resamplers self resamplers) (during_gather others) in
  (exceptions_of (dict.keys (_resamplers self)) results, self, calls).

(** The [async for timer_timestamp in self._timer] loop; [others] holds
    what other tasks do in each of its rounds, nothing when it is too
    short. *)
Fixpoint resample_loop (one_shot : bool) (timer : list Z) (others : list Meanwhile)
    (self : t) : Outcome * t * list Event :=
  match timer with
  | [] => (Returns, with_timer self [], [])
  | timer_timestamp :: timer =>
      let '(exceptions, self, calls) :=
        tick (with_timer self timer) timer_timestamp
          (default (mkMeanwhile [] []) (head others)) in
      match exceptions with
      | Raise e => (Raises e, self, calls)
      | Ok exceptions =>
          if decide (exceptions = ∅) then
            if one_shot then (Returns, self, calls)
            else
              let '(outcome, self, more) :=
                resample_loop one_shot timer (tail others) self in
              (outcome, self, calls ++ more)
          else (RaisesResamplingError exceptions, self, calls)
      end
  end.

Definition resample (self : t) (one_shot : bool) (others : list Meanwhile)
    : Outcome * t * list Event :=
  resample_loop one_shot (_timer self) others self.

End Resampler.

(** ** Notions used by the statements *)

(** The samples of a buffer are in ascending order of timestamp. *)
Definition ascending (buffer : list Sample) : Prop :=
  Sorted (λ a b, timestamp a ≤ timestamp b) buffer.

(** The value of a sample is neither [None] nor NaN. *)
Definition has_number (sample : Sample) : bool :=
  match value sample with
  | Some v => negb (isnan v)
  | None => false
  end.

(** The values that are not [None]. *)
Fixpoint non_none_values (samples : list Sample) : list float :=
  match samples with
  | [] => []
  | sample :: samples =>
      match value sample with
      | Some v => v :: non_none_values samples
      | None => non_none_values samples
      end
  end.

(** The values added one after the other to [acc], each addition rounded
    to a double. *)
Fixpoint added_in_turn (acc : float) (values : list float) : float :=
  match values with
  | [] => acc
  | v :: values => added_in_turn (acc + v)%float values
  end.

(** The mean as [average] computes it: the values added in turn to zero,
    and the result divided by their count, in double arithmetic. *)
Definition rounded_mean (values : list float) : float :=
  (added_in_turn 0 values / float_of_len (length values))%float.

(** The number a double stands for; an infinity and NaN stand for none. *)
Definition exact (x : float) : option Q :=
  match Prim2SF x with
  | S754_zero _ => Some 0%Q
  | S754_finite s m e =>
      Some ((if s then - inject_Z (Z.pos m) else inject_Z (Z.pos m)) * 2 ^ e)%Q
  | S754_infinity _ | S754_nan => None
  end.

(** Modelled from the spec: the arithmetic mean of some numbers, their sum
    divided by their count, as the number it is. *)
Definition arithmetic_mean (values : list Q) : Q :=
  (foldr Qplus 0 values / inject_Z (Z.of_nat (length values)))%Q.

(** Modelled from the spec: the bound [t - p * m] of the relevant samples,
    as the number it is, in microseconds. *)
Definition exact_bound (t : Z) (p m : Q) : Q :=
  (inject_Z t - p * m * 1000000)%Q.


(** Every sample of a sequence has a number as its value. *)
Definition numbers_only (samples : list Sample) : Prop :=
  Forall (λ s, has_number s = true) samples.

(** An entry fails in the tick at [t]: its helper's [resample] raises. *)
Definition failed (resamplers : dict.t _StreamingHelper.t) (t : Z)
    (source : Source) (e : Exn) : Prop :=
  ∃ r, resamplers !! source = Some r ∧ (_StreamingHelper.resample r t).1.1 = Raise e.

(** An entry fails in the tick at [t] with an [Exception] or a
    [CancelledError]. *)
Definition failed_with_exception (resamplers : dict.t _StreamingHelper.t) (t : Z)
    (source : Source) (e : Exn) : Prop :=
  failed resamplers t source e ∧ is_exception e = true.

(** [source] has a registration. *)
Definition registered (self : Resampler.t) (source : Source) : Prop :=
  is_Some (Resampler._resamplers self !! source).

(** A call that neither adds nor removes a registration. *)
Definition keeps_registrations (c : Call) : Prop :=
  match c with
  | AddTimeseries _ _ | RemoveTimeseries _ => False
  | Stop | ReceivingTask _ _ => True
  end.

(** A call that is not [remove_timeseries(source)]. *)
Definition keeps (source : Source) (c : Call) : Prop :=
  c ≠ RemoveTimeseries source.

(** A call that is not an [add_timeseries]. *)
Definition adds_nothing (c : Call) : Prop :=
  match c with
  | AddTimeseries _ _ => False
  | _ => True
  end.

(** All the calls other tasks make in the course of a [resample]. *)
Definition calls_of (others : list Meanwhile) : list Call :=
  others ≫= λ m, before_gather m ++ during_gather m.

(** ** The receiving task as a whole, and the use of a [Resampler] *)

(** The samples the receiving task gets from its source: what the source
    yields before it ends or raises. *)
Fixpoint received (events : list SourceEvent) : list Sample :=
  match events with
  | Yield sample :: events => sample :: received events
  | _ => []
  end.

(** The state of the receiving task once the source has done [events]. *)
Fixpoint task_after (events : list SourceEvent) : Task :=
  match events with
  | [] => Pending
  | Yield _ :: events => task_after events
  | StopAsyncIteration :: _ => Finished
  | SourceRaises e :: _ => Failed e
  end.

(** The samples the source yields in the course of some activities. *)
Fixpoint yields_of (activities : list _StreamingHelper.Activity) : list Sample :=
  match activities with
  | [] => []
  | _StreamingHelper.SourcePulled (Yield sample) :: activities =>
      sample :: yields_of activities
  | _ :: activities => yields_of activities
  end.

(** What is done with a [Resampler]: a call of [add_timeseries],
    [remove_timeseries] or [stop] or a round of a receiving task, or a call
    of [resample] with what other tasks do in its course. *)
Inductive Use : Type :=
| Does (c : Call)
| Resample (one_shot : bool) (others : list Meanwhile).

Definition use (self : Resampler.t) (u : Use) : Resampler.t :=
  match u with
  | Does c => Resampler.call self c
  | Resample one_shot others => (Resampler.resample self one_shot others).1.2
  end.

(** A registry as the methods of the [Resampler] build it: every helper is
    registered under its own source and works with the configuration of the
    [Resampler]. *)
Definition consistent (self : Resampler.t) : Prop :=
  ∀ source r,
    Resampler._resamplers self !! source = Some r →
    _StreamingHelper._source r = source ∧
    _ResamplingHelper._resampling_period_s (_StreamingHelper._helper r) =
      Resampler._resampling_period_s self ∧
    _ResamplingHelper._max_data_age_in_periods (_StreamingHelper._helper r) =
      Resampler._max_data_age_in_periods self ∧
    _ResamplingHelper._resampling_function (_StreamingHelper._helper r) =
      Resampler._resampling_function self.

(** A [Resampler] with the given configuration whose registry is
    consistent and whose windows hold numbers only. *)
Definition sound (period max_age : float) (function : ResamplingFunction)
    (self : Resampler.t) : Prop :=
  Resampler._resampling_period_s self = period ∧
  Resampler._max_data_age_in_periods self = max_age ∧
  Resampler._resampling_function self = function ∧
  ∀ source r,
    Resampler._resamplers self !! source = Some r →
    _StreamingHelper._source r = source ∧
    _ResamplingHelper._resampling_period_s (_StreamingHelper._helper r) = period ∧
    _ResamplingHelper._max_data_age_in_periods (_StreamingHelper._helper r) = max_age ∧
    _ResamplingHelper._resampling_function (_StreamingHelper._helper r) = function ∧
    numbers_only (_ResamplingHelper._buffer (_StreamingHelper._helper r)).

(** ** [battery_status.utils]: [TimeoutParam] and [LastResponse] *)

(** [BatteryResult]. *)
Inductive BatteryResult : Type :=
| SUCCESS
| OUT_OF_RANGE
| ERROR
| UNKNOWN_RESULT
| UNUSED.

(** [min(a, b)] of Python: [b] when it is less than [a], else [a]. *)
Definition py_min (a b : Q) : Q := if Qlt_le_dec b a then b else a.

Module TimeoutParam.

(** The dataclass; times are in seconds. *)
Record t : Type := mk {
  start_time : Q;
  duration_s : Q;
  expiration_time : Q;
}.

(** The class attribute [max_timeout_duration_s = 30]. *)
Definition max_timeout_duration_s : Q := 30%Q.

(** [TimeoutParam(start_time, duration_s)]: [__post_init__] sets the
    expiration time. *)
Definition __init__ (start_time duration_s : Q) : t :=
  {| start_time := start_time;
     duration_s := duration_s;
     expiration_time := (start_time + duration_s)%Q |}.

(** [update]: what it returns, and the object afterwards. *)
Definition update (self : t) (now : Q) : Q * t :=
  if Qlt_le_dec (expiration_time self) now then
    let duration_s := py_min (duration_s self * 2)%Q max_timeout_duration_s in
    (duration_s,
     {| start_time := start_time self;
        duration_s := duration_s;
        expiration_time := (now + duration_s)%Q |})
  else (0%Q, self).

Definition is_expired (self : t) (now : Q) : bool :=
  if Qlt_le_dec (expiration_time self) now then true else false.

End TimeoutParam.

(** What [LastResponse.update] gives: the duration it returns, or the
    [KeyError] of [del self._components[component_id]]. *)
Inductive Updated : Type :=
| Returned (duration_s : Q)
| KeyError (component_id : Z).

Module LastResponse.

Record t : Type := mk {
  _components : gmap Z TimeoutParam.t;
}.

(** [LastResponse()]. *)
Definition __init__ : t := {| _components := ∅ |}.

(** [result in LastResponse.invalid_battery_result]. *)
Definition invalid_battery_result (result : BatteryResult) : bool :=
  match result with
  | ERROR | UNKNOWN_RESULT => true
  | SUCCESS | OUT_OF_RANGE | UNUSED => false
  end.

Definition update (self : t) (component_id : Z) (result : BatteryResult) (now : Q)
    : Updated * t :=
  if invalid_battery_result result then
    match _components self !! component_id with
    | Some param =>
        let '(duration_s, param) := TimeoutParam.update param now in
        (Returned duration_s,
         {| _components := <[component_id := param]> (_components self) |})
    | None =>
        let param := TimeoutParam.__init__ now 1%Q in
        (Returned (TimeoutParam.duration_s param),
         {| _components := <[component_id := param]> (_components self) |})
    end
  else
    match _components self !! component_id with
    | Some _ =>
        (Returned 0%Q, {| _components := delete component_id (_components self) |})
    | None => (KeyError component_id, self)
    end.

Definition is_correct (self : t) (component_id : Z) (now : Q) : bool :=
  match _components self !! component_id with
  | None => true
  | Some param => TimeoutParam.is_expired param now
  end.

(** The responses reported one after the other, each with its time; the
    sequence stops at the first [KeyError]. *)
Fixpoint updates (self : t) (responses : list (Z * BatteryResult * Q)) : option t :=
  match responses with
  | [] => Some self
  | (component_id, result, now) :: responses =>
      match update self component_id result now with
      | (Returned _, self) => updates self responses
      | (KeyError _, _) => None
      end
  end.

End LastResponse.

(** The timeouts of a [LastResponse] are between one second and the
    maximum. *)
Definition bounded (self : LastResponse.t) : Prop :=
  ∀ component_id param,
    LastResponse._components self !! component_id = Some param →
    (1 <= TimeoutParam.duration_s param)%Q ∧
    (TimeoutParam.duration_s param <= TimeoutParam.max_timeout_duration_s)%Q.

(** * Proofs *)

(** ** The window: eviction *)

Section Eviction.
Import _ResamplingHelper.
Variable threshold : Z.

(** The loop splits the buffer: what it pops is a prefix of samples at or
    below the threshold. *)
Lemma popleft_outdated_split (buffer : list Sample) :
  ∃ evicted,
    buffer = evicted ++ popleft_outdated threshold buffer ∧
    Forall (λ s, timestamp s ≤ threshold) evicted.
Proof.
  induction buffer as [|sample rest IH]; simpl.
  - exists []. split; [reflexivity | constructor].
  - case_decide as Hnew.
    + exists []. split; [reflexivity | constructor].
    + destruct IH as (evicted & Hsplit & Hall).
      exists (sample :: evicted). split.
      * simpl. congruence.
      * constructor; [lia | assumption].
Qed.

(** The loop stops at a sample newer than the threshold, or at the end. *)
Lemma popleft_outdated_head (buffer : list Sample) :
  match popleft_outdated threshold buffer with
  | [] => True
  | sample :: _ => threshold < timestamp sample
  end.
Proof.
  induction buffer as [|sample rest IH]; simpl; [exact I|].
  case_decide; assumption.
Qed.

(** What is left of an ascending buffer is ascending. *)
Lemma popleft_outdated_ascending (buffer : list Sample) :
  ascending buffer → ascending (popleft_outdated threshold buffer).
Proof.
  unfold ascending.
  induction buffer as [|sample rest IH]; simpl; intros Hs; [constructor|].
  case_decide; [assumption|].
  apply IH. eapply Sorted_inv, Hs.
Qed.

(** In an ascending buffer every sample is at least as new as the first. *)
Lemma ascending_head_least (sample : Sample) (rest : list Sample) :
  ascending (sample :: rest) →
  Forall (λ s, timestamp sample ≤ timestamp s) (sample :: rest).
Proof.
  intros Hs. constructor; [lia|].
  assert (Htrans : Transitive (λ a b : Sample, timestamp a ≤ timestamp b)).
  { intros a b c Hab Hbc. lia. }
  apply Sorted_StronglySorted in Hs; [|exact Htrans].
  apply StronglySorted_inv in Hs. tauto.
Qed.

Lemma popleft_outdated_retained (buffer : list Sample) :
  ascending buffer →
  Forall (λ s, threshold < timestamp s) (popleft_outdated threshold buffer).
Proof.
  intros Hs. apply popleft_outdated_ascending in Hs.
  pose proof (popleft_outdated_head buffer) as Hhead.
  destruct (popleft_outdated threshold buffer) as [|sample rest]; [constructor|].
  eapply Forall_impl; [apply ascending_head_least, Hs|].
  intros s Hle. simpl in Hle. lia.
Qed.
End Eviction.

(** A call of [resample] that cannot compute its threshold raises, makes no
    call and leaves the helper as it is. *)
Lemma helper_resample_raises (self : _ResamplingHelper.t) (t : Z) (e : Exn) :
  _ResamplingHelper.threshold_at self t = Raise e →
  _ResamplingHelper.resample self t = (Raise e, self, []).
Proof. unfold _ResamplingHelper.resample. by intros ->. Qed.

(** The buffer a call of [resample] leaves behind. *)
Lemma helper_resample_buffer (self : _ResamplingHelper.t) (t : Z) :
  _ResamplingHelper._buffer (_ResamplingHelper.resample self t).1.2 =
  match _ResamplingHelper.threshold_at self t with
  | Ok threshold =>
      _ResamplingHelper.popleft_outdated threshold (_ResamplingHelper._buffer self)
  | Raise _ => _ResamplingHelper._buffer self
  end.
Proof.
  unfold _ResamplingHelper.resample.
  destruct (_ResamplingHelper.threshold_at self t) as [threshold|e]; [|reflexivity].
  simpl.
  destruct (_ResamplingHelper.popleft_outdated _ _) as [|s l] eqn:Hb; [exact Hb|].
  destruct (_ResamplingHelper._resampling_function self _ _); exact Hb.
Qed.

(** [resample] leaves a suffix of the buffer. *)
Lemma helper_resample_suffix (self : _ResamplingHelper.t) (t : Z) :
  ∃ evicted,
    _ResamplingHelper._buffer self =
    evicted ++ _ResamplingHelper._buffer (_ResamplingHelper.resample self t).1.2.
Proof.
  rewrite helper_resample_buffer.
  destruct (_ResamplingHelper.threshold_at self t) as [threshold|e].
  - destruct (popleft_outdated_split threshold (_ResamplingHelper._buffer self))
      as (evicted & Hsplit & _). by exists evicted.
  - by exists [].
Qed.

(** The threshold is the timestamp less the maximal age. *)
Lemma threshold_at_Ok (self : _ResamplingHelper.t) (t threshold : Z) :
  _ResamplingHelper.threshold_at self t = Ok threshold ↔
  ∃ delta,
    _ResamplingHelper.max_data_age self = Ok delta ∧
    threshold = t - delta ∧ 0 ≤ t - delta ≤ datetime_max.
Proof.
  unfold _ResamplingHelper.threshold_at, datetime_sub.
  destruct (_ResamplingHelper.max_data_age self) as [delta|e].
  - case_decide as Hr; split.
    + intros [= <-]. by exists delta.
    + intros (d & [= <-] & -> & _). reflexivity.
    + discriminate.
    + intros (d & [= <-] & -> & Hin). contradiction.
  - split; [discriminate|]. by intros (d & Hd & _).
Qed.

(** C1, as amended.  Eviction correctness.  Let [delta] be
    [timedelta(seconds=m * p)] for the age multiplier [m] and the period
    [p] of a window: the double product, rounded to whole microseconds.
    For a window whose buffer is in ascending order of timestamp, a call
    of [resample t] that gets to its threshold [t - delta] splits the
    buffer into the samples it evicts and the samples it retains: every
    retained sample has [timestamp > t - delta], and every evicted sample
    has [timestamp <= t - delta], so that no sample newer than that bound
    is evicted.  When [m * p] is no duration ([timedelta] raises) or
    [t - delta] is no [datetime], the call raises that error and evicts
    nothing. *)
Theorem eviction_correct (self : _ResamplingHelper.t) (t : Z) :
  ascending (_ResamplingHelper._buffer self) →
  let p := _ResamplingHelper._resampling_period_s self in
  let m := _ResamplingHelper._max_data_age_in_periods self in
  let retained := _ResamplingHelper._buffer (_ResamplingHelper.resample self t).1.2 in
  match timedelta (m * p)%float with
  | Ok delta =>
      match datetime_sub t delta with
      | Ok _ =>
          ∃ evicted,
            _ResamplingHelper._buffer self = evicted ++ retained ∧
            Forall (λ s, timestamp s ≤ t - delta) evicted ∧
            Forall (λ s, t - delta < timestamp s) retained
      | Raise e => _ResamplingHelper.resample self t = (Raise e, self, [])
      end
  | Raise e => _ResamplingHelper.resample self t = (Raise e, self, [])
  end.
Proof.
  intros Hs p m retained. subst retained p m.
  rewrite helper_resample_buffer.
  pose proof (helper_resample_raises self t) as Hraise.
  pose proof (threshold_at_Ok self t) as Hok.
  unfold _ResamplingHelper.threshold_at, _ResamplingHelper.max_data_age in *.
  destruct (timedelta _) as [delta|e]; [|by apply Hraise].
  destruct (datetime_sub t delta) as [threshold|e]; [|by apply Hraise].
  destruct (proj1 (Hok threshold) eq_refl) as (d & [= <-] & -> & _).
  destruct (popleft_outdated_split (t - delta) (_ResamplingHelper._buffer self))
    as (evicted & Hsplit & Hold).
  exists evicted. split; [exact Hsplit|]. split; [exact Hold|].
  by apply popleft_outdated_retained.
Qed.

Lemma eviction_correct_example :
  let t := 63800000000000000 in
  let self :=
    _ResamplingHelper.mk 1 3
      [mkSample (t - 4000000) (Some 10%float); mkSample (t - 3000000) (Some 20%float);
       mkSample (t - 2999999) (Some 30%float)] average in
  ascending (_ResamplingHelper._buffer self) ∧
  ∃ evicted,
    _ResamplingHelper._buffer self =
      evicted ++ _ResamplingHelper._buffer (_ResamplingHelper.resample self t).1.2 ∧
    Forall (λ s, timestamp s ≤ t - 3000000) evicted ∧
    Forall (λ s, t - 3000000 < timestamp s)
      (_ResamplingHelper._buffer (_ResamplingHelper.resample self t).1.2).
Proof.
  intros t self.
  assert (Hs : ascending (_ResamplingHelper._buffer self)).
  { unfold ascending. simpl. repeat constructor; simpl; lia. }
  split; [exact Hs|]. exact (eviction_correct self t Hs).
Defined.

(** The claim fails for the period [1/7] and the age multiplier [3.0]: the
    maximal age is 428571 microseconds, less than [p * m], and a sample of
    that age, newer than [t - p * m], is evicted. *)
Lemma eviction_bound_is_rounded :
  let t := 63800000000000000 in
  let sample := mkSample (t - 428571) (Some 1%float) in
  let self := _ResamplingHelper.mk (1 / 7)%float 3%float [sample] average in
  ascending (_ResamplingHelper._buffer self) ∧
  (∃ p m,
     exact (_ResamplingHelper._resampling_period_s self) = Some p ∧
     exact (_ResamplingHelper._max_data_age_in_periods self) = Some m ∧
     (exact_bound t p m < inject_Z (timestamp sample))%Q) ∧
  _ResamplingHelper._buffer (_ResamplingHelper.resample self t).1.2 = [].
Proof.
  intros t sample self. split; [|split].
  - unfold ascending. simpl. repeat constructor.
  - eexists _, _. split; [vm_compute; reflexivity|].
    split; [vm_compute; reflexivity|]. vm_compute. reflexivity.
  - vm_compute. reflexivity.
Qed.

(** ** The window: the empty case *)


(** ** [average] *)

(** The list comprehension of [average] keeps the values that are not
    [None]. *)
Lemma omap_value_non_none (samples : list Sample) :
  omap value samples = non_none_values samples.
Proof.
  induction samples as [|sample samples IH]; [reflexivity|].
  simpl. rewrite <- IH. unfold omap at 1. simpl. destruct (value sample); reflexivity.
Qed.

Lemma non_none_values_all_none (samples : list Sample) :
  Forall (λ s, value s = None) samples → non_none_values samples = [].
Proof.
  induction 1 as [|sample samples Hnone _ IH]; simpl; [reflexivity|].
  by rewrite Hnone.
Qed.

(** The assertion of [average] fails on the empty sequence and on no
    other. *)
Lemma average_assertion (samples : list Sample) (p : float) :
  average samples p = Raise AssertionError ↔ samples = [].
Proof.
  unfold average. split.
  - destruct samples as [|sample samples]; [reflexivity|].
    case_decide as Hn; [|simpl in Hn; lia].
    cbv zeta. unfold truediv.
    destruct (length (omap value (sample :: samples))); intros H; discriminate H.
  - intros ->. reflexivity.
Qed.

(** C5, as amended.  On a sequence of samples that is not empty and whose
    values are all [None], [average] fails with [ZeroDivisionError], from
    the division of the empty sum by the zero count; no assertion fails
    (the assertion of [average] is on the sequence of samples). *)
Theorem average_all_none (samples : list Sample) (p : float) :
  samples ≠ [] →
  Forall (λ s, value s = None) samples →
  average samples p = Raise ZeroDivisionError ∧
  average samples p ≠ Raise AssertionError.
Proof.
  intros Hne Hnone.
  assert (Hdiv : average samples p = Raise ZeroDivisionError).
  { unfold average.
    case_decide as Hn.
    - rewrite omap_value_non_none, non_none_values_all_none by exact Hnone.
      reflexivity.
    - destruct samples; [congruence | simpl in Hn; lia]. }
  split; [exact Hdiv|]. rewrite Hdiv. discriminate.
Qed.

Lemma average_all_none_example :
  [mkSample 0 None; mkSample 1 None] ≠ [] ∧
  Forall (λ s, value s = None) [mkSample 0 None; mkSample 1 None] ∧
  average [mkSample 0 None; mkSample 1 None] 1 = Raise ZeroDivisionError ∧
  average [mkSample 0 None; mkSample 1 None] 1 ≠ Raise AssertionError.
Proof.
  assert (Hne : [mkSample 0 None; mkSample 1 None] ≠ []) by discriminate.
  assert (Hnone : Forall (λ s, value s = None) [mkSample 0 None; mkSample 1 None]).
  { repeat constructor. }
  split; [exact Hne|]. split; [exact Hnone|].
  exact (average_all_none _ 1 Hne Hnone).
Defined.

(** The claim fails on one sample without a value: the failure is the
    division by zero, and no assertion fails. *)
Lemma average_all_none_not_assertion :
  average [mkSample 0 None] 1 = Raise ZeroDivisionError ∧
  average [mkSample 0 None] 1 ≠ Raise AssertionError.
Proof. split; [reflexivity | discriminate]. Qed.

(** [sum] adds the values in turn. *)
Lemma sum_added_in_turn (values : list float) (acc : float) :
  foldl PrimFloat.add acc values = added_in_turn acc values.
Proof.
  revert acc. induction values as [|v values IH]; intros acc; [reflexivity|].
  simpl. apply IH.
Qed.

(** [average] in terms of the values that are not [None]. *)
Lemma average_unfold (samples : list Sample) (p : float) :
  average samples p =
  match samples with
  | [] => Raise AssertionError
  | _ :: _ =>
      match non_none_values samples with
      | [] => Raise ZeroDivisionError
      | values => Ok (rounded_mean values)
      end
  end.
Proof.
  unfold average. destruct samples as [|sample samples].
  - case_decide as Hn; [simpl in Hn; lia | reflexivity].
  - case_decide as Hn; [|simpl in Hn; lia].
    cbv zeta. rewrite omap_value_non_none.
    destruct (non_none_values (sample :: samples)) as [|v values]; [reflexivity|].
    unfold truediv, rounded_mean, sum. by rewrite sum_added_in_turn.
Qed.

(** C6, as amended.  The value of [average].  On samples with at least one
    value that is not [None], [average] returns the mean of those values
    as double arithmetic gives it: the values are added in turn to zero,
    each addition rounded, and the result is divided by their count.  On
    the values [1.0, None, 3.0] it returns [2.0], which is their arithmetic
    mean. *)
Theorem average_is_rounded_mean :
  (∀ (samples : list Sample) (p : float),
     non_none_values samples ≠ [] →
     average samples p = Ok (rounded_mean (non_none_values samples))) ∧
  (∀ (t1 t2 t3 : Z) (p : float),
     average [mkSample t1 (Some 1%float); mkSample t2 None;
              mkSample t3 (Some 3%float)] p = Ok 2%float ∧
     ∃ q, exact 2 = Some q ∧ (q == arithmetic_mean [1; 3])%Q).
Proof.
  split.
  - intros samples p Hne. rewrite average_unfold.
    destruct samples as [|sample samples]; [done|].
    by destruct (non_none_values (sample :: samples)).
  - intros t1 t2 t3 p. split; [reflexivity|].
    eexists. split; [vm_compute; reflexivity|]. vm_compute. reflexivity.
Qed.

Lemma average_is_rounded_mean_example :
  let samples :=
    [mkSample 0 (Some 0.5%float); mkSample 1 None; mkSample 2 (Some 0.25%float)] in
  non_none_values samples ≠ [] ∧
  average samples 1 = Ok 0.375%float.
Proof.
  intros samples.
  assert (Hne : non_none_values samples ≠ []) by discriminate.
  split; [exact Hne|]. exact (proj1 average_is_rounded_mean samples 1%float Hne).
Defined.

(** The claim fails where double arithmetic rounds or overflows.  The sum
    of twice [2^1023] overflows: [average] returns infinity, which is no
    number, while the mean is [2^1023].  And [2^53 + 1] is rounded to
    [2^53]: on the values [2^53, 1, -2^53] [average] returns [0], while
    their mean is [1/3]. *)
Lemma average_is_not_the_mean :
  let big := 0x1p+1023%float in
  let samples := [mkSample 0 (Some big); mkSample 1 (Some big)] in
  let samples' :=
    [mkSample 0 (Some 9007199254740992%float); mkSample 1 (Some 1%float);
     mkSample 2 (Some (-9007199254740992)%float)] in
  (average samples 1 = Ok infinity ∧
   exact infinity = None ∧
   ∃ q, exact big = Some q ∧ (arithmetic_mean [q; q] == q)%Q) ∧
  (average samples' 1 = Ok 0%float ∧
   exact 0 = Some 0%Q ∧
   ∃ a b c,
     exact 9007199254740992 = Some a ∧ exact 1 = Some b ∧
     exact (-9007199254740992) = Some c ∧
     (arithmetic_mean [a; b; c] == 1 # 3)%Q ∧ ¬ (0 == 1 # 3)%Q).
Proof.
  intros big samples samples'. split.
  - split; [vm_compute; reflexivity|]. split; [vm_compute; reflexivity|].
    eexists. split; [vm_compute; reflexivity|]. vm_compute. reflexivity.
  - split; [vm_compute; reflexivity|]. split; [vm_compute; reflexivity|].
    eexists _, _, _. split; [vm_compute; reflexivity|].
    split; [vm_compute; reflexivity|]. split; [vm_compute; reflexivity|].
    split; [vm_compute; reflexivity|]. intros H. vm_compute in H. discriminate H.
Qed.

(** Every call [resample] makes of the resampling function is on the window
    it leaves behind, with the helper's period. *)
Lemma helper_resample_calls (self : _ResamplingHelper.t) (t : Z) (ev : Event) :
  ev ∈ (_ResamplingHelper.resample self t).2 →
  ev = ResamplingFunctionCall
         (_ResamplingHelper._buffer (_ResamplingHelper.resample self t).1.2)
         (_ResamplingHelper._resampling_period_s self) ∧
  _ResamplingHelper._buffer (_ResamplingHelper.resample self t).1.2 ≠ [].
Proof.
  unfold _ResamplingHelper.resample.
  destruct (_ResamplingHelper.threshold_at self t) as [threshold|e]; simpl;
    [|intros Hin; by apply elem_of_nil in Hin].
  destruct (_ResamplingHelper.popleft_outdated _ _) as [|s l] eqn:Hb.
  - simpl. intros Hin. by apply elem_of_nil in Hin.
  - destruct (_ResamplingHelper._resampling_function self (s :: l) _);
      simpl; rewrite Hb; intros Hin; apply list_elem_of_singleton in Hin;
      (split; [exact Hin | discriminate]).
Qed.

(** [resample] keeps the configuration of the window. *)
Lemma helper_resample_config (self : _ResamplingHelper.t) (t : Z) :
  let self' := (_ResamplingHelper.resample self t).1.2 in
  _ResamplingHelper._resampling_period_s self' =
    _ResamplingHelper._resampling_period_s self ∧
  _ResamplingHelper._max_data_age_in_periods self' =
    _ResamplingHelper._max_data_age_in_periods self ∧
  _ResamplingHelper._resampling_function self' =
    _ResamplingHelper._resampling_function self.
Proof.
  unfold _ResamplingHelper.resample.
  destruct (_ResamplingHelper.threshold_at self t) as [threshold|e]; [|done].
  simpl. destruct (_ResamplingHelper.popleft_outdated _ _); [done|].
  by destruct (_ResamplingHelper._resampling_function _ _ _).
Qed.

(** ** The streaming helper *)

Section Streaming.
Import _StreamingHelper.

Lemma with_task_same (self : t) : with_task self (_receiving_task self) = self.
Proof. by destruct self. Qed.

(** A helper whose receiving task is done fails every call of [resample]
    without touching the window or the sink. *)
Lemma streaming_resample_done (self : t) (timestamp : Z) :
  done (_receiving_task self) = true →
  resample self timestamp =
    (Raise match _receiving_task self with
           | Failed e => e
           | Cancelled => CancelledError
           | _ => SourceStoppedError (_source self)
           end, self, []).
Proof.
  unfold resample. destruct (_receiving_task self); simpl; intros Hdone;
    [discriminate Hdone | reflexivity..].
Qed.

(** Nothing changes a helper whose receiving task is done. *)
Lemma stop_done (self : t) :
  done (_receiving_task self) = true → stop self = self.
Proof.
  intros Hdone. unfold stop.
  replace (cancel_and_await (_receiving_task self)) with (_receiving_task self)
    by (by destruct (_receiving_task self)).
  apply with_task_same.
Qed.

Lemma receive_samples_done (self : t) (ev : SourceEvent) :
  done (_receiving_task self) = true → _receive_samples self ev = self.
Proof. unfold _receive_samples. by destruct (_receiving_task self). Qed.

Lemma act_done (self : t) (a : Activity) :
  done (_receiving_task self) = true → act self a = (self, []).
Proof.
  intros Hdone. destruct a as [ev|timestamp|]; simpl.
  - by rewrite receive_samples_done.
  - by rewrite streaming_resample_done.
  - by rewrite stop_done.
Qed.

Lemma run_done (self : t) (activities : list Activity) :
  done (_receiving_task self) = true → run self activities = (self, []).
Proof.
  intros Hdone. induction activities as [|a activities IH]; simpl; [reflexivity|].
  by rewrite act_done, IH.
Qed.
End Streaming.


(** ** Ingestion keeps [None] and NaN out of the window *)

Section Ingestion.
Import _StreamingHelper.

(** One round of the receiving loop. *)
Lemma receive_samples_buffer (self : t) (ev : SourceEvent) :
  _ResamplingHelper._buffer (_helper (_receive_samples self ev)) =
  match ev with
  | Yield sample =>
      if negb (done (_receiving_task self)) && has_number sample
      then _ResamplingHelper._buffer (_helper self) ++ [sample]
      else _ResamplingHelper._buffer (_helper self)
  | _ => _ResamplingHelper._buffer (_helper self)
  end.
Proof.
  unfold _receive_samples, has_number.
  destruct (_receiving_task self), ev as [sample| |e']; simpl; try reflexivity.
  destruct (value sample) as [v|]; [|reflexivity].
  destruct (isnan v); reflexivity.
Qed.

(** [resample] leaves a suffix of the window. *)
Lemma streaming_resample_suffix (self : t) (timestamp : Z) :
  ∃ evicted,
    _ResamplingHelper._buffer (_helper self) =
    evicted ++ _ResamplingHelper._buffer (_helper (resample self timestamp).1.2).
Proof.
  unfold resample. destruct (done _).
  { exists []. by destruct (exception _) as [[?|]|]. }
  destruct (helper_resample_suffix (_helper self) timestamp) as (evicted & Hsplit).
  exists evicted.
  by destruct (_ResamplingHelper.resample _ _) as [[[sample|e] helper] calls].
Qed.

(** What [resample] leaves in the window was in the window. *)
Lemma streaming_resample_buffer (self : t) (timestamp : Z) :
  numbers_only (_ResamplingHelper._buffer (_helper self)) →
  numbers_only (_ResamplingHelper._buffer (_helper (resample self timestamp).1.2)).
Proof.
  intros Hall.
  destruct (streaming_resample_suffix self timestamp) as (evicted & Hsplit).
  rewrite Hsplit in Hall. by apply Forall_app in Hall as [_ ?].
Qed.

(** The calls [resample] makes of the resampling function are on the
    window it leaves. *)
Lemma streaming_resample_calls (self : t) (timestamp : Z)
    (samples : list Sample) (p : float) :
  ResamplingFunctionCall samples p ∈ (resample self timestamp).2 →
  samples = _ResamplingHelper._buffer (_helper (resample self timestamp).1.2).
Proof.
  unfold resample.
  destruct (done _).
  { destruct (exception _) as [[?|]|]; simpl; intros Hin;
      by apply elem_of_nil in Hin. }
  pose proof (helper_resample_calls (_helper self) timestamp
                (ResamplingFunctionCall samples p)) as Hcalls.
  destruct (_ResamplingHelper.resample _ _) as [[[sample|e] helper] calls];
    simpl in *; intros Hin.
  - apply elem_of_app in Hin as [Hin|Hin].
    + destruct (Hcalls Hin) as [Heq _]. congruence.
    + apply list_elem_of_singleton in Hin. discriminate.
  - destruct (Hcalls Hin) as [Heq _]. congruence.
Qed.

Lemma receive_samples_numbers (self : t) (ev : SourceEvent) :
  numbers_only (_ResamplingHelper._buffer (_helper self)) →
  numbers_only (_ResamplingHelper._buffer (_helper (_receive_samples self ev))).
Proof.
  intros Hall. rewrite receive_samples_buffer.
  destruct ev as [sample| |e]; try assumption.
  destruct (negb _ && has_number sample) eqn:Hnum; [|assumption].
  apply andb_true_iff in Hnum as [_ Hnum].
  apply Forall_app. split; [assumption|]. by constructor.
Qed.

Lemma act_numbers (self : t) (a : Activity) :
  numbers_only (_ResamplingHelper._buffer (_helper self)) →
  numbers_only (_ResamplingHelper._buffer (_helper (act self a).1)) ∧
  ∀ samples p,
    ResamplingFunctionCall samples p ∈ (act self a).2 → numbers_only samples.
Proof.
  intros Hall. destruct a as [ev|timestamp|]; simpl.
  - split; [|intros samples p Hin; by apply elem_of_nil in Hin].
    by apply receive_samples_numbers.
  - pose proof (streaming_resample_buffer self timestamp Hall) as Hbuf.
    pose proof (streaming_resample_calls self timestamp) as Hcalls.
    destruct (resample self timestamp) as [[outcome self'] calls]; simpl in *.
    split; [assumption|]. intros samples p Hin. by rewrite (Hcalls _ _ Hin).
  - split; [assumption|]. intros samples p Hin. by apply elem_of_nil in Hin.
Qed.

Lemma run_numbers (self : t) (activities : list Activity) :
  numbers_only (_ResamplingHelper._buffer (_helper self)) →
  numbers_only (_ResamplingHelper._buffer (_helper (run self activities).1)) ∧
  ∀ samples p,
    ResamplingFunctionCall samples p ∈ (run self activities).2 →
    numbers_only samples.
Proof.
  revert self. induction activities as [|a activities IH]; intros self Hall; simpl.
  - split; [assumption|]. intros samples p Hin. by apply elem_of_nil in Hin.
  - destruct (act_numbers self a Hall) as [Hbuf Hcalls].
    destruct (act self a) as [self' calls]; simpl in *.
    destruct (IH self' Hbuf) as [Hbuf' Hcalls'].
    destruct (run self' activities) as [self'' more]; simpl in *.
    split; [assumption|]. intros samples p Hin.
    apply elem_of_app in Hin as [Hin|Hin]; eauto.
Qed.
End Ingestion.

(** C8.  Filtering at ingestion.  A sample the source yields is appended to
    the window exactly when the receiving task is running and the value is
    neither [None] nor NaN.  Hence, whatever a helper created with an empty
    window goes through, every sample in its window has a value that is
    not NaN, and so has every sample passed to the resampling function. *)
Theorem ingestion_filters_nan :
  (∀ (self : _StreamingHelper.t) (sample : Sample),
     _ResamplingHelper._buffer
       (_StreamingHelper._helper
          (_StreamingHelper._receive_samples self (Yield sample))) =
     if negb (done (_StreamingHelper._receiving_task self)) && has_number sample
     then _ResamplingHelper._buffer (_StreamingHelper._helper self) ++ [sample]
     else _ResamplingHelper._buffer (_StreamingHelper._helper self)) ∧
  (∀ (period max_age : float) (function : ResamplingFunction) (source : Source)
     (sink : Sink) (activities : list _StreamingHelper.Activity),
     let fresh :=
       _StreamingHelper.__init__
         (_ResamplingHelper.__init__ period max_age function) source sink in
     let '(self, calls) := _StreamingHelper.run fresh activities in
     (∀ sample,
        sample ∈ _ResamplingHelper._buffer (_StreamingHelper._helper self) →
        ∃ v, value sample = Some v ∧ isnan v = false) ∧
     (∀ samples p sample,
        ResamplingFunctionCall samples p ∈ calls →
        sample ∈ samples →
        ∃ v, value sample = Some v ∧ isnan v = false)).
Proof.
  split.
  - intros self sample. apply (receive_samples_buffer self (Yield sample)).
  - intros period max_age function source sink activities fresh.
    assert (Hnum : ∀ sample, has_number sample = true →
                     ∃ v, value sample = Some v ∧ isnan v = false).
    { intros sample. unfold has_number.
      destruct (value sample) as [v|]; [|discriminate].
      intros Hv. exists v. split; [reflexivity|]. by destruct (isnan v). }
    destruct (run_numbers fresh activities) as [Hbuf Hcalls]; [constructor|].
    destruct (_StreamingHelper.run fresh activities) as [self calls]; simpl in *.
    split.
    + intros sample Hin. apply Hnum.
      unfold numbers_only in Hbuf. rewrite Forall_forall in Hbuf. by apply Hbuf.
    + intros samples p sample Hcall Hin.
      specialize (Hcalls samples p Hcall).
      unfold numbers_only in Hcalls. rewrite Forall_forall in Hcalls.
      apply Hnum. by apply Hcalls.
Qed.

(** ** Dictionaries *)

Section Assoc.
Context {V : Type}.
Implicit Types (l : list (Source * V)) (k : Source) (v : V).

Lemma assoc_None l k : dict.assoc k l = None ↔ k ∉ l.*1.
Proof.
  induction l as [|[k' v'] l IH]; simpl.
  - split; [intros _; apply not_elem_of_nil | done].
  - rewrite not_elem_of_cons. case_decide as Hk.
    + split; [discriminate|]. intros [Hne _]. by subst.
    + rewrite IH. split; [intros Hnot; split; [congruence | exact Hnot] | tauto].
Qed.

Lemma assoc_elem_of l k v : dict.assoc k l = Some v → (k, v) ∈ l.
Proof.
  induction l as [|[k' v'] l IH]; simpl; [discriminate|].
  case_decide as Hk.
  - intros [= <-]. subst. by left.
  - intros Hl. right. by apply IH.
Qed.

Lemma assoc_Some l k v : NoDup l.*1 → dict.assoc k l = Some v ↔ (k, v) ∈ l.
Proof.
  intros Hnodup. split; [apply assoc_elem_of|].
  induction l as [|[k' v'] l IH]; simpl; [intros Hin; by apply elem_of_nil in Hin|].
  simpl in Hnodup. apply NoDup_cons in Hnodup as [Hk' Hnodup].
  intros Hin. apply elem_of_cons in Hin as [[= -> ->]|Hin].
  - by rewrite decide_True.
  - rewrite decide_False; [by apply IH|].
    intros ->. apply Hk'. apply list_elem_of_fmap. by exists (k, v).
Qed.

Lemma assoc_app l1 l2 k :
  dict.assoc k (l1 ++ l2) =
  match dict.assoc k l1 with
  | Some v => Some v
  | None => dict.assoc k l2
  end.
Proof.
  induction l1 as [|[k' v'] l1 IH]; simpl; [reflexivity|].
  by case_decide.
Qed.

Lemma assoc_fmap {W : Type} (f : Source → V → W) l k :
  dict.assoc k ((λ kv : Source * V, (kv.1, f kv.1 kv.2)) <$> l) = f k <$> dict.assoc k l.
Proof.
  induction l as [|[k' v'] l IH]; simpl; [reflexivity|].
  case_decide as Hk; [by subst | exact IH].
Qed.

Lemma assoc_filter_ne l k k' :
  k' ≠ k → dict.assoc k' (filter (λ kv, kv.1 ≠ k) l) = dict.assoc k' l.
Proof.
  intros Hne. induction l as [|[k0 v0] l IH]; [reflexivity|].
  rewrite filter_cons. simpl. destruct (decide (k0 = k)) as [->|Hk0].
  - rewrite decide_False by (intros Hx; by apply Hx).
    rewrite IH. by rewrite decide_False by congruence.
  - rewrite decide_True by exact Hk0. simpl. by rewrite IH.
Qed.

Lemma assoc_filter_eq l k : dict.assoc k (filter (λ kv, kv.1 ≠ k) l) = None.
Proof.
  apply assoc_None. intros Hin.
  apply list_elem_of_fmap in Hin as ([k' v'] & -> & Hin).
  apply list_elem_of_filter in Hin as [Hne _]. by apply Hne.
Qed.

Lemma filter_ne_id l k : k ∉ l.*1 → filter (λ kv, kv.1 ≠ k) l = l.
Proof.
  induction l as [|[k' v'] l IH]; [reflexivity|].
  simpl. rewrite not_elem_of_cons. intros [Hne Hnot].
  rewrite filter_cons. simpl. rewrite decide_True by congruence.
  by rewrite IH.
Qed.

Lemma filter_ne_length l k :
  NoDup l.*1 → k ∈ l.*1 →
  S (length (filter (λ kv, kv.1 ≠ k) l)) = length l.
Proof.
  induction l as [|[k' v'] l IH]; simpl; [intros _ Hin; by apply elem_of_nil in Hin|].
  intros Hnodup Hin. apply NoDup_cons in Hnodup as [Hk' Hnodup].
  rewrite filter_cons. simpl.
  destruct (decide (k' = k)) as [->|Hne].
  - rewrite decide_False by (intros Hx; by apply Hx).
    by rewrite filter_ne_id.
  - rewrite decide_True by exact Hne. simpl. f_equal. apply IH; [exact Hnodup|].
    apply elem_of_cons in Hin as [Heq|Hin]; [congruence | exact Hin].
Qed.

End Assoc.

Section Dict.
Context {V : Type}.
Implicit Types (d : dict.t V) (k : Source) (v : V).

(** Two dictionaries with the same items are the same. *)
Lemma dict_eq d1 d2 : dict.items d1 = dict.items d2 → d1 = d2.
Proof. intros Heq. by apply dsig_eq. Qed.

Lemma dict_lookup_Some d k v : d !! k = Some v ↔ (k, v) ∈ dict.items d.
Proof. apply assoc_Some, dict.keys_NoDup. Qed.

Lemma dict_lookup_None d k : d !! k = None ↔ k ∉ dict.keys d.
Proof. apply assoc_None. Qed.

Lemma dict_lookup_is_Some d k : is_Some (d !! k) ↔ k ∈ dict.keys d.
Proof.
  rewrite <- not_eq_None_Some, dict_lookup_None.
  destruct (decide (k ∈ dict.keys d)); tauto.
Qed.

Lemma dict_lookup_empty k : (∅ : dict.t V) !! k = None.
Proof. reflexivity. Qed.

Lemma dict_items_map {W : Type} (f : Source → V → W) d :
  dict.items (dict.map f d) = (λ kv : Source * V, (kv.1, f kv.1 kv.2)) <$> dict.items d.
Proof. reflexivity. Qed.

Lemma dict_lookup_map {W : Type} (f : Source → V → W) d k :
  dict.map f d !! k = f k <$> d !! k.
Proof. apply assoc_fmap. Qed.

Lemma dict_keys_map {W : Type} (f : Source → V → W) d :
  dict.keys (dict.map f d) = dict.keys d.
Proof. unfold dict.keys. rewrite dict_items_map. by rewrite <- list_fmap_compose. Qed.

Lemma dict_values_map {W : Type} (f : V → W) d :
  dict.values (dict.map (λ _, f) d) = f <$> dict.values d.
Proof.
  unfold dict.values. rewrite dict_items_map. by rewrite <- !list_fmap_compose.
Qed.

Lemma dict_size_map {W : Type} (f : Source → V → W) d :
  size (dict.map f d) = size d.
Proof. unfold size, dict.len. rewrite dict_items_map. apply length_fmap. Qed.

Lemma dict_lookup_alter (f : V → V) k d k' :
  dict.alter f k d !! k' = if decide (k' = k) then f <$> d !! k' else d !! k'.
Proof.
  unfold dict.alter. rewrite dict_lookup_map.
  case_decide; [reflexivity|]. by destruct (d !! k').
Qed.

Lemma dict_keys_alter (f : V → V) k d : dict.keys (dict.alter f k d) = dict.keys d.
Proof. apply dict_keys_map. Qed.

Lemma dict_items_setitem d k v :
  d !! k = None → dict.items (dict.setitem d k v) = dict.items d ++ [(k, v)].
Proof.
  intros Hnew. unfold dict.setitem.
  destruct (decide (k ∈ dict.keys d)) as [Hin|Hnot]; [|reflexivity].
  by apply dict_lookup_None in Hnew.
Qed.

Lemma dict_lookup_setitem_eq d k v : dict.setitem d k v !! k = Some v.
Proof.
  unfold dict.setitem.
  destruct (decide (k ∈ dict.keys d)) as [Hin|Hnot].
  - rewrite dict_lookup_alter, decide_True by reflexivity.
    apply dict_lookup_is_Some in Hin as [v' ->]. reflexivity.
  - unfold lookup, dict.get. simpl. rewrite assoc_app.
    apply assoc_None in Hnot. rewrite Hnot. simpl. by rewrite decide_True.
Qed.

Lemma dict_lookup_setitem_ne d k v k' : k' ≠ k → dict.setitem d k v !! k' = d !! k'.
Proof.
  intros Hne. unfold dict.setitem.
  destruct (decide (k ∈ dict.keys d)) as [Hin|Hnot].
  - by rewrite dict_lookup_alter, decide_False.
  - unfold lookup, dict.get. simpl. rewrite assoc_app.
    destruct (dict.assoc k' (dict.items d)); [reflexivity|].
    simpl. by rewrite decide_False by congruence.
Qed.

Lemma dict_size_setitem d k v : d !! k = None → size (dict.setitem d k v) = S (size d).
Proof.
  intros Hnew. unfold size, dict.len. rewrite dict_items_setitem by exact Hnew.
  rewrite length_app. simpl. lia.
Qed.

Lemma dict_lookup_delitem_eq d k : dict.delitem d k !! k = None.
Proof. apply assoc_filter_eq. Qed.

Lemma dict_lookup_delitem_ne d k k' : k' ≠ k → dict.delitem d k !! k' = d !! k'.
Proof. apply assoc_filter_ne. Qed.

Lemma dict_size_delitem d k : is_Some (d !! k) → S (size (dict.delitem d k)) = size d.
Proof.
  intros Hin. apply dict_lookup_is_Some in Hin.
  apply filter_ne_length; [apply dict.keys_NoDup | exact Hin].
Qed.

Lemma dict_delitem_setitem d k v : d !! k = None → dict.delitem (dict.setitem d k v) k = d.
Proof.
  intros Hnew. apply dict_eq. unfold dict.delitem. simpl.
  rewrite dict_items_setitem by exact Hnew.
  rewrite filter_app, filter_ne_id by (by apply dict_lookup_None).
  rewrite filter_cons, filter_nil. simpl.
  rewrite decide_False by (intros Hx; by apply Hx). apply app_nil_r.
Qed.

Lemma dict_keys_empty d : dict.keys d = [] ↔ d = ∅.
Proof.
  split; [|by intros ->].
  intros Hk. apply dict_eq. by apply fmap_nil_inv in Hk.
Qed.

Lemma dict_delitem_empty k : dict.delitem (∅ : dict.t V) k = ∅.
Proof. by apply dict_eq. Qed.

End Dict.

Lemma dict_map_empty {V W : Type} (f : Source → V → W) : dict.map f (∅ : dict.t V) = ∅.
Proof. by apply dict_eq. Qed.

(** ** The registry *)

Lemma with_resamplers_same (self : Resampler.t) :
  Resampler.with_resamplers self (Resampler._resamplers self) = self.
Proof. by destruct self. Qed.

(** C7.  The answers of [add_timeseries] and [remove_timeseries].  For a
    source that is not registered, [add_timeseries] answers [True] and the
    registry gains one entry, a new helper under that source, the others
    being unchanged, while [remove_timeseries] answers [False] and changes
    nothing.  For a registered source, [add_timeseries] answers [False]
    and changes nothing, while [remove_timeseries] answers [True] and
    removes that entry and no other. *)
Theorem registration (self : Resampler.t) (source : Source) (sink : Sink) :
  let resamplers := Resampler._resamplers self in
  let '(added, self_a) := Resampler.add_timeseries self source sink in
  let '(removed, self_r) := Resampler.remove_timeseries self source in
  match resamplers !! source with
  | None =>
      added = true ∧
      Resampler._resamplers self_a !! source =
        Some (_StreamingHelper.__init__
                (_ResamplingHelper.__init__
                   (Resampler._resampling_period_s self)
                   (Resampler._max_data_age_in_periods self)
                   (Resampler._resampling_function self))
                source sink) ∧
      (∀ other, other ≠ source →
         Resampler._resamplers self_a !! other = resamplers !! other) ∧
      size (Resampler._resamplers self_a) = S (size resamplers) ∧
      removed = false ∧ self_r = self
  | Some _ =>
      added = false ∧ self_a = self ∧
      removed = true ∧
      Resampler._resamplers self_r !! source = None ∧
      (∀ other, other ≠ source →
         Resampler._resamplers self_r !! other = resamplers !! other) ∧
      S (size (Resampler._resamplers self_r)) = size resamplers
  end.
Proof.
  intros resamplers. subst resamplers.
  unfold Resampler.add_timeseries, Resampler.remove_timeseries.
  destruct (Resampler._resamplers self !! source) as [r|] eqn:Hl; simpl.
  - repeat split.
    + apply dict_lookup_delitem_eq.
    + intros other Hne. by apply dict_lookup_delitem_ne.
    + apply dict_size_delitem. by rewrite Hl.
  - repeat split.
    + apply dict_lookup_setitem_eq.
    + intros other Hne. by apply dict_lookup_setitem_ne.
    + by apply dict_size_setitem.
Qed.

(** ** The resampler: one tick *)

Section Collect.
Context {H : Type} (g : H → Res unit).

(** The comprehension over the entries [l] of a dictionary, whose results
    start at index [k] of [results]: it does not raise, and it adds to
    [acc] the sources whose result is an [Exception] or a
    [CancelledError]. *)
Lemma foldl_collect (l : list (Source * H)) (k : nat)
    (results : list (Res unit)) (acc : gmap Source Exn) :
  NoDup l.*1 →
  (∀ i, results !! (k + i)%nat = g <$> l.*2 !! i) →
  (∀ source, source ∈ l.*1 → acc !! source = None) →
  ∃ exceptions,
    foldl (Resampler.collect results) (Ok acc) (imap (λ i, pair (k + i)%nat) l.*1)
      = Ok exceptions ∧
    ∀ source e,
      exceptions !! source = Some e ↔
      (∃ h, (source, h) ∈ l ∧ g h = Raise e ∧ is_exception e = true) ∨
      acc !! source = Some e.
Proof.
  revert k acc. induction l as [|[s0 h0] l IH]; intros k acc Hnodup Hres Hfresh.
  { exists acc. split; [reflexivity|]. intros source e. split; [tauto|].
    intros [(h & Hin & _)|Hacc]; [by apply elem_of_nil in Hin | exact Hacc]. }
  rewrite !fmap_cons in *. simpl in Hnodup.
  apply NoDup_cons in Hnodup as [Hs0 Hnodup].
  rewrite imap_cons. simpl.
  pose proof (Hres 0%nat) as Hres0. simpl in Hres0.
  replace (k + 0)%nat with k in * by lia. rewrite Hres0.
  rewrite (imap_ext _ (λ i, pair (S k + i)%nat)); last first.
  { intros i x _. simpl. f_equal. lia. }
  assert (Hres' : ∀ i, results !! (S k + i)%nat = g <$> l.*2 !! i).
  { intros i. specialize (Hres (S i)). simpl in Hres.
    rewrite <- Hres. f_equal. lia. }
  assert (Hskip : ∀ u : Res unit,
            (∀ e, u = Raise e → is_exception e = false) → g h0 = u →
            ∃ exceptions,
              foldl (Resampler.collect results) (Ok acc)
                (imap (λ i, pair (S k + i)%nat) l.*1) = Ok exceptions ∧
              ∀ source e,
                exceptions !! source = Some e ↔
                (∃ h, (source, h) ∈ (s0, h0) :: l ∧ g h = Raise e ∧
                      is_exception e = true) ∨
                acc !! source = Some e).
  { intros u Hu Hg.
    destruct (IH (S k) acc Hnodup Hres') as (exceptions & Hfold & Hspec).
    { intros source Hin. apply Hfresh. by right. }
    exists exceptions. split; [exact Hfold|]. intros source e.
    rewrite Hspec. split.
    - intros [(h & Hin & Hh)|Hacc]; [left | by right].
      exists h. split; [by right | exact Hh].
    - intros [(h & Hin & Hh & He)|Hacc]; [|by right].
      apply elem_of_cons in Hin as [Heq|Hin].
      + injection Heq as -> ->. rewrite Hg in Hh.
        rewrite (Hu e Hh) in He. discriminate.
      + left. eauto. }
  destruct (g h0) as [u|e0] eqn:Hg.
  - apply (Hskip (Ok u)); [discriminate | reflexivity].
  - destruct (is_exception e0) eqn:He0; last first.
    { apply (Hskip (Raise e0)); [|reflexivity]. by intros e [= <-]. }
    destruct (IH (S k) (<[s0 := e0]> acc) Hnodup Hres') as (exceptions & Hfold & Hspec).
    { intros source Hin. rewrite lookup_insert_ne by (intros ->; contradiction).
      apply Hfresh. by right. }
    exists exceptions. split; [exact Hfold|]. intros source e.
    rewrite Hspec. split.
    + intros [(h & Hin & Hh)|Hacc].
      * left. exists h. split; [by right | exact Hh].
      * destruct (decide (s0 = source)) as [->|Hne].
        -- rewrite lookup_insert_eq in Hacc. injection Hacc as ->.
           left. exists h0. split; [by left | by split].
        -- rewrite lookup_insert_ne in Hacc by exact Hne. by right.
    + intros [(h & Hin & Hh & He)|Hacc].
      * apply elem_of_cons in Hin as [Heq|Hin].
        -- injection Heq as -> ->. right.
           rewrite lookup_insert_eq. congruence.
        -- left. eauto.
      * right. rewrite lookup_insert_ne; [exact Hacc|].
        intros ->. rewrite Hfresh in Hacc by (by left). discriminate.
Qed.

Lemma exceptions_of_entries (l : list (Source * H)) :
  NoDup l.*1 →
  ∃ exceptions,
    Resampler.exceptions_of l.*1 (g <$> l.*2) = Ok exceptions ∧
    ∀ source e,
      exceptions !! source = Some e ↔
      ∃ h, (source, h) ∈ l ∧ g h = Raise e ∧ is_exception e = true.
Proof.
  intros Hnodup.
  destruct (foldl_collect l 0 (g <$> l.*2) ∅ Hnodup) as (exceptions & Hfold & Hspec).
  - intros i. simpl. apply list_lookup_fmap.
  - intros source _. apply lookup_empty.
  - exists exceptions. split; [exact Hfold|]. intros source e.
    rewrite Hspec, lookup_empty. split; [|by left].
    intros [?|?]; [assumption | discriminate].
Qed.
End Collect.

(** The comprehension raises nothing but the [IndexError] of [results[i]],
    and raises it only when there are more keys than results. *)
Lemma foldl_collect_raises (results : list (Res unit)) (sources : list Source)
    (k : nat) (acc : Res (gmap Source Exn)) (e : Exn) :
  foldl (Resampler.collect results) acc (imap (λ i, pair (k + i)%nat) sources) = Raise e →
  acc = Raise e ∨ (e = IndexError ∧ (length results < k + length sources)%nat).
Proof.
  revert k acc. induction sources as [|s sources IH]; intros k acc; simpl.
  { intros ->. by left. }
  rewrite (imap_ext _ (λ i, pair (S k + i)%nat)); last first.
  { intros i x _. simpl. f_equal. lia. }
  intros Hfold. apply IH in Hfold as [Hacc|[-> Hlen]]; [|right; split; [done|lia]].
  destruct acc as [exceptions|e']; [|left; exact Hacc]. right.
  simpl in Hacc. replace (k + 0)%nat with k in Hacc by lia.
  destruct (results !! k) as [[u|e0]|] eqn:Hr.
  - discriminate.
  - by destruct (is_exception e0).
  - injection Hacc as <-. split; [reflexivity|].
    apply lookup_ge_None in Hr. lia.
Qed.

Lemma exceptions_of_raises (sources : list Source) (results : list (Res unit)) (e : Exn) :
  Resampler.exceptions_of sources results = Raise e →
  e = IndexError ∧ (length results < length sources)%nat.
Proof.
  unfold Resampler.exceptions_of. intros Hfold.
  apply (foldl_collect_raises results sources 0) in Hfold as [Habs|Hok];
    [discriminate | exact Hok].
Qed.

Section Gather.
Import Resampler.
Variable resamplers : dict.t _StreamingHelper.t.
Variable t : Z.

(** [gather] by components. *)
Lemma gather_results :
  (gather resamplers t).1.1 =
  (λ r, (_StreamingHelper.resample r t).1.1) <$> dict.values resamplers.
Proof. unfold gather. simpl. by rewrite <- !list_fmap_compose. Qed.

Lemma gather_resamplers (source : Source) :
  (gather resamplers t).1.2 !! source =
  (λ r, (_StreamingHelper.resample r t).1.2) <$> resamplers !! source.
Proof. unfold gather. simpl. apply dict_lookup_map. Qed.

Lemma gather_keys :
  dict.keys (gather resamplers t).1.2 = dict.keys resamplers.
Proof. unfold gather. simpl. apply dict_keys_map. Qed.

Lemma gather_length : length (gather resamplers t).1.1 = length (dict.keys resamplers).
Proof. rewrite gather_results. unfold dict.values, dict.keys. by rewrite !length_fmap. Qed.

Lemma gather_events :
  (gather resamplers t).2 =
  concat ((λ r, (_StreamingHelper.resample r t).2) <$> dict.values resamplers).
Proof. unfold gather. simpl. by rewrite <- !list_fmap_compose. Qed.

Lemma gather_calls (ev : Event) :
  ev ∈ (gather resamplers t).2 ↔
  ∃ source r, resamplers !! source = Some r ∧ ev ∈ (_StreamingHelper.resample r t).2.
Proof.
  rewrite gather_events. unfold dict.values. rewrite <- list_fmap_compose.
  rewrite list_elem_of_In, in_concat. split.
  - intros (events & Hin & Hev).
    apply list_elem_of_In, list_elem_of_fmap in Hin as ([source r] & -> & Hin).
    apply dict_lookup_Some in Hin. apply list_elem_of_In in Hev. eauto.
  - intros (source & r & Hr & Hev).
    exists (_StreamingHelper.resample r t).2. split; [|by apply list_elem_of_In].
    apply list_elem_of_In, list_elem_of_fmap.
    exists (source, r). split; [reflexivity|]. by apply dict_lookup_Some.
Qed.

(** The comprehension over the keys of the dictionary that was gathered
    does not raise, and collects the sources that failed with an
    [Exception] or a [CancelledError], each with its error. *)
Lemma gather_exceptions :
  ∃ exceptions,
    exceptions_of (dict.keys resamplers) (gather resamplers t).1.1 = Ok exceptions ∧
    ∀ source e,
      exceptions !! source = Some e ↔ failed_with_exception resamplers t source e.
Proof.
  rewrite gather_results.
  destruct (exceptions_of_entries (λ r, (_StreamingHelper.resample r t).1.1)
              (dict.items resamplers)) as (exceptions & Hex & Hspec).
  { apply dict.keys_NoDup. }
  exists exceptions. split; [exact Hex|]. intros source e. rewrite Hspec.
  unfold failed_with_exception, failed. setoid_rewrite dict_lookup_Some.
  split; [intros (h & ? & ? & ?) | intros [(h & ? & ?) ?]]; eauto.
Qed.

Lemma no_exceptions (exceptions : gmap Source Exn) :
  (∀ source e,
     exceptions !! source = Some e ↔ failed_with_exception resamplers t source e) →
  exceptions = ∅ ↔ ¬ ∃ source e, failed_with_exception resamplers t source e.
Proof.
  intros Hspec. rewrite map_empty. split.
  - intros Hnone (source & e & Hfail). apply Hspec in Hfail.
    rewrite Hnone in Hfail. discriminate.
  - intros Hno source. destruct (exceptions !! source) as [e|] eqn:Hl; [|reflexivity].
    exfalso. apply Hno. exists source, e. by apply Hspec.
Qed.

End Gather.

(** ** What other tasks do in the meantime *)

Section Calls.
Import Resampler.

Lemma call_keys (self : t) (c : Call) :
  keeps_registrations c →
  dict.keys (_resamplers (call self c)) = dict.keys (_resamplers self).
Proof.
  destruct c as [source sink|source| |source ev]; simpl; try done; intros _.
  - apply dict_keys_map.
  - apply dict_keys_alter.
Qed.

Lemma calls_keys (self : t) (calls : list Call) :
  Forall keeps_registrations calls →
  dict.keys (_resamplers (foldl call self calls)) = dict.keys (_resamplers self).
Proof.
  revert self. induction calls as [|c calls IH]; intros self Hall; [reflexivity|].
  apply Forall_cons in Hall as [Hc Hall]. simpl.
  rewrite IH by exact Hall. by apply call_keys.
Qed.

(** Only [add_timeseries] makes the registry longer. *)
Lemma call_length (self : t) (c : Call) :
  adds_nothing c →
  (length (dict.keys (_resamplers (call self c))) ≤
   length (dict.keys (_resamplers self)))%nat.
Proof.
  destruct c as [source sink|source| |source ev]; simpl; try done; intros _.
  - unfold remove_timeseries.
    destruct (_resamplers self !! source) eqn:Hl; simpl; [|lia].
    pose proof (dict_size_delitem (_resamplers self) source) as Hsize.
    unfold size, dict.len in Hsize. unfold dict.keys. rewrite !length_fmap.
    rewrite <- Hsize by (by rewrite Hl). lia.
  - by rewrite dict_keys_map.
  - by rewrite dict_keys_alter.
Qed.

Lemma calls_length (self : t) (calls : list Call) :
  Forall adds_nothing calls →
  (length (dict.keys (_resamplers (foldl call self calls))) ≤
   length (dict.keys (_resamplers self)))%nat.
Proof.
  revert self. induction calls as [|c calls IH]; intros self Hall; [reflexivity|].
  apply Forall_cons in Hall as [Hc Hall]. simpl.
  etrans; [apply IH, Hall|]. by apply call_length.
Qed.

(** No call changes the timer or the configuration. *)
Lemma call_frame (self : t) (c : Call) :
  _timer (call self c) = _timer self ∧
  _resampling_period_s (call self c) = _resampling_period_s self ∧
  _max_data_age_in_periods (call self c) = _max_data_age_in_periods self ∧
  _resampling_function (call self c) = _resampling_function self.
Proof.
  destruct c as [source sink|source| |source ev]; simpl; try done.
  - unfold add_timeseries. by destruct (_resamplers self !! source).
  - unfold remove_timeseries. by destruct (_resamplers self !! source).
Qed.

Lemma calls_frame (self : t) (calls : list Call) :
  _timer (foldl call self calls) = _timer self ∧
  _resampling_period_s (foldl call self calls) = _resampling_period_s self ∧
  _max_data_age_in_periods (foldl call self calls) = _max_data_age_in_periods self ∧
  _resampling_function (foldl call self calls) = _resampling_function self.
Proof.
  revert self. induction calls as [|c calls IH]; intros self; [done|].
  simpl. destruct (IH (call self c)) as (-> & -> & -> & ->). apply call_frame.
Qed.

(** One round of the loop, by components. *)
Lemma tick_unfold (self : t) (timestamp : Z) (others : Meanwhile) :
  let before := foldl call self (before_gather others) in
  let gathered := gather (_resamplers before) timestamp in
  let after := foldl call (with_resamplers before gathered.1.2) (during_gather others) in
  tick self timestamp others =
  (exceptions_of (dict.keys (_resamplers after)) gathered.1.1, after, gathered.2).
Proof.
  intros before gathered after. unfold tick. fold before.
  subst after gathered. by destruct (gather (_resamplers before) timestamp) as [[? ?] ?].
Qed.

(** When no registration is added or removed while [gather] is awaited,
    the comprehension does not raise and collects the sources that failed
    with an [Exception] or a [CancelledError]. *)
Lemma tick_exceptions (self : t) (timestamp : Z) (others : Meanwhile) :
  Forall keeps_registrations (during_gather others) →
  let before := foldl call self (before_gather others) in
  ∃ exceptions,
    (tick self timestamp others).1.1 = Ok exceptions ∧
    ∀ source e,
      exceptions !! source = Some e ↔
      failed_with_exception (_resamplers before) timestamp source e.
Proof.
  intros Hkeep before. rewrite tick_unfold. fold before. cbn [fst snd].
  rewrite calls_keys by exact Hkeep. cbn [_resamplers with_resamplers].
  rewrite gather_keys. apply gather_exceptions.
Qed.

(** The first round of the loop. *)
Lemma resample_loop_cons (one_shot : bool) (timestamp : Z) (timer : list Z)
    (others : list Meanwhile) (self : t) :
  resample_loop one_shot (timestamp :: timer) others self =
  let '(exceptions, after, calls) :=
    tick (with_timer self timer) timestamp (default (mkMeanwhile [] []) (head others)) in
  match exceptions with
  | Raise e => (Raises e, after, calls)
  | Ok exceptions =>
      if decide (exceptions = ∅) then
        if one_shot then (Returns, after, calls)
        else
          let '(outcome, later, more) := resample_loop one_shot timer (tail others) after in
          (outcome, later, calls ++ more)
      else (RaisesResamplingError exceptions, after, calls)
  end.
Proof. reflexivity. Qed.

End Calls.




Lemma with_timer_twice (self : Resampler.t) (timer timer' : list Z) :
  Resampler.with_timer (Resampler.with_timer self timer) timer' =
  Resampler.with_timer self timer'.
Proof. reflexivity. Qed.

(** C9, as amended.  One shot.  With [one_shot] and a timer that yields the
    tick [t] first, [Resampler.resample] consumes that tick and no other
    and calls [resample t] once on every helper registered when [gather]
    is called, whatever other tasks do in the meantime.  Provided no
    registration is added or removed while [gather] is awaited, it then
    returns when no entry failed with an [Exception] or a
    [CancelledError], and raises [ResamplingError] with the sources that
    failed so when one did.  In every case the call ends after that one
    tick: it returns, raises [ResamplingError] or raises [IndexError]. *)
Theorem one_shot_one_tick (self : Resampler.t) (t : Z) (timer : list Z)
    (others : list Meanwhile) :
  let first := default (mkMeanwhile [] []) (head others) in
  let before :=
    foldl Resampler.call (Resampler.with_timer self timer) (before_gather first) in
  let resamplers := Resampler._resamplers before in
  let '(outcome, self', calls) :=
    Resampler.resample (Resampler.with_timer self (t :: timer)) true others in
  Resampler._timer self' = timer ∧
  self' =
    foldl Resampler.call
      (Resampler.with_resamplers before
         (dict.map (λ _ r, (_StreamingHelper.resample r t).1.2) resamplers))
      (during_gather first) ∧
  calls =
    concat ((λ r, (_StreamingHelper.resample r t).2) <$> dict.values resamplers) ∧
  (Forall keeps_registrations (during_gather first) →
   ((¬ ∃ source e, failed_with_exception resamplers t source e) →
      outcome = Returns) ∧
   ((∃ source e, failed_with_exception resamplers t source e) →
      ∃ exceptions,
        outcome = RaisesResamplingError exceptions ∧
        ∀ source e,
          exceptions !! source = Some e ↔
          failed_with_exception resamplers t source e)) ∧
  (outcome = Returns ∨
   (∃ exceptions, outcome = RaisesResamplingError exceptions) ∨
   outcome = Raises IndexError).
Proof.
  intros first before resamplers. unfold Resampler.resample.
  change (Resampler._timer (Resampler.with_timer self (t :: timer))) with (t :: timer).
  rewrite resample_loop_cons, with_timer_twice. fold first.
  pose proof (tick_exceptions (Resampler.with_timer self timer) t first) as Htick.
  rewrite tick_unfold in Htick |- *. fold before resamplers in Htick |- *.
  cbn [fst snd] in Htick.
  set (after := foldl Resampler.call _ (during_gather first)) in *.
  assert (Htimer : Resampler._timer after = timer).
  { subst after. rewrite (proj1 (calls_frame _ _)). simpl.
    subst before. by rewrite (proj1 (calls_frame _ _)). }
  assert (Hafter : after =
            foldl Resampler.call
              (Resampler.with_resamplers before
                 (dict.map (λ _ r, (_StreamingHelper.resample r t).1.2) resamplers))
              (during_gather first)) by reflexivity.
  pose proof (gather_events resamplers t) as Hcalls.
  destruct (Resampler.exceptions_of _ _) as [exceptions|e] eqn:Hex.
  - destruct (decide (exceptions = ∅)) as [Hnone|Hsome].
    + split; [exact Htimer|]. split; [exact Hafter|]. split; [exact Hcalls|].
      split; [|by left]. intros Hkeep.
      destruct (Htick Hkeep) as (exceptions' & [= <-] & Hspec).
      pose proof (no_exceptions resamplers t exceptions Hspec) as Hempty.
      split; [reflexivity|]. intros Hfail. apply Hempty in Hnone. contradiction.
    + split; [exact Htimer|]. split; [exact Hafter|]. split; [exact Hcalls|].
      split; [|right; left; eauto]. intros Hkeep.
      destruct (Htick Hkeep) as (exceptions' & [= <-] & Hspec).
      pose proof (no_exceptions resamplers t exceptions Hspec) as Hempty.
      split; [intros Hno; apply Hempty in Hno; contradiction|].
      intros _. by exists exceptions.
  - split; [exact Htimer|]. split; [exact Hafter|]. split; [exact Hcalls|].
    apply exceptions_of_raises in Hex as [-> _].
    split; [|by right; right]. intros Hkeep.
    destruct (Htick Hkeep) as (exceptions' & Habs & _). discriminate Habs.
Qed.

Lemma one_shot_one_tick_example :
  let t := 63800000000000000 in
  let self :=
    Resampler.call (Resampler.__init__ 1 average 3 []) (AddTimeseries 7%nat (λ _, Ok tt)) in
  let others :=
    [mkMeanwhile [ReceivingTask 7%nat (Yield (mkSample (t - 5) (Some 4%float)))] [Stop]] in
  let result :=
    Resampler.resample (Resampler.with_timer self [t; t + 1000000]) true others in
  Forall keeps_registrations (during_gather (default (mkMeanwhile [] []) (head others))) ∧
  result.1.1 = Returns ∧
  Resampler._timer result.1.2 = [t + 1000000] ∧
  result.2 = [ResamplingFunctionCall [mkSample (t - 5) (Some 4%float)] 1;
              SinkCall 7%nat (mkSample t (Some 4%float))].
Proof.
  intros t self others result.
  assert (Hkeep : Forall keeps_registrations
            (during_gather (default (mkMeanwhile [] []) (head others)))).
  { repeat constructor. }
  split; [exact Hkeep|].
  pose proof (one_shot_one_tick self t [t + 1000000] others) as H.
  cbv zeta in H. subst result.
  destruct (Resampler.resample (Resampler.with_timer self [t; t + 1000000]) true others)
    as [[outcome self'] calls].
  destruct H as (Htimer & _ & Hcalls & Hout & _).
  split; [|split; [exact Htimer|]].
  - apply (Hout Hkeep). intros (source & e & (r & Hr & Hres) & _).
    apply dict_lookup_Some in Hr. apply list_elem_of_singleton in Hr.
    injection Hr as -> ->. vm_compute in Hres. discriminate Hres.
  - simpl. rewrite Hcalls. vm_compute. reflexivity.
Defined.

(** The claim fails for an entry whose receiving task ended with an
    exception that is neither an [Exception] nor a [CancelledError]: the
    entry fails, and the call returns instead of raising.  It fails as
    well when a registration is added while [gather] is awaited: no entry
    fails, and the call raises [IndexError] instead of returning. *)
Lemma one_shot_failure_not_reported :
  let t := 63800000000000000 in
  let self :=
    foldl Resampler.call (Resampler.__init__ 1 average 3 [t; t + 1000000])
      [AddTimeseries 7%nat (λ _, Ok tt);
       ReceivingTask 7%nat (SourceRaises (OtherBaseException 0))] in
  let self' :=
    Resampler.call (Resampler.__init__ 1 average 3 [t; t + 1000000])
      (AddTimeseries 7%nat (λ _, Ok tt)) in
  let others := [mkMeanwhile [] [AddTimeseries 8%nat (λ _, Ok tt)]] in
  (failed (Resampler._resamplers self) t 7%nat (OtherBaseException 0) ∧
   (Resampler.resample self true []).1.1 = Returns) ∧
  ((∀ source r,
      Resampler._resamplers self' !! source = Some r →
      (_StreamingHelper.resample r t).1.1 = Ok tt) ∧
   (Resampler.resample self' true others).1.1 = Raises IndexError).
Proof.
  intros t self self' others. split; split.
  - eexists. split; [vm_compute; reflexivity|]. vm_compute. reflexivity.
  - vm_compute. reflexivity.
  - intros source r Hr. apply dict_lookup_Some in Hr.
    apply list_elem_of_singleton in Hr. injection Hr as -> ->.
    vm_compute. reflexivity.
  - vm_compute. reflexivity.
Qed.

(** ** What the loop keeps *)

Lemma calls_of_cons (m : Meanwhile) (others : list Meanwhile) :
  calls_of (m :: others) = (before_gather m ++ during_gather m) ++ calls_of others.
Proof. reflexivity. Qed.

Lemma Forall_calls_of (P : Call → Prop) (others : list Meanwhile) :
  Forall P (calls_of others) →
  Forall P (before_gather (default (mkMeanwhile [] []) (head others))) ∧
  Forall P (during_gather (default (mkMeanwhile [] []) (head others))) ∧
  Forall P (calls_of (tail others)).
Proof.
  destruct others as [|m others].
  { intros _. repeat split; constructor. }
  rewrite calls_of_cons, !Forall_app. simpl. tauto.
Qed.

Section LoopInvariant.
Import Resampler.
Variable Inv : t → Prop.
Variable allowed : Call → Prop.
Hypothesis Inv_call : ∀ self c, allowed c → Inv self → Inv (call self c).
Hypothesis Inv_gather :
  ∀ self timestamp,
    Inv self → Inv (with_resamplers self (gather (_resamplers self) timestamp).1.2).
Hypothesis Inv_timer : ∀ self timer, Inv self → Inv (with_timer self timer).

Lemma calls_invariant (self : t) (calls : list Call) :
  Forall allowed calls → Inv self → Inv (foldl call self calls).
Proof.
  revert self. induction calls as [|c calls IH]; intros self Hall Hinv; [exact Hinv|].
  apply Forall_cons in Hall as [Hc Hall]. simpl. apply IH; [exact Hall|].
  by apply Inv_call.
Qed.

(** What every call of other tasks, every [gather] and every tick keep,
    the loop keeps; and every call the loop makes is made by a [gather]
    in a state that has it, for a tick of the timer. *)
Lemma resample_loop_invariant (one_shot : bool) (timer : list Z)
    (others : list Meanwhile) (self : t) :
  Forall allowed (calls_of others) →
  Inv self →
  Inv (resample_loop one_shot timer others self).1.2 ∧
  ∀ ev,
    ev ∈ (resample_loop one_shot timer others self).2 →
    ∃ s timestamp,
      Inv s ∧ timestamp ∈ timer ∧ ev ∈ (gather (_resamplers s) timestamp).2.
Proof.
  revert others self. induction timer as [|timestamp timer IH]; intros others self Hall Hinv.
  { simpl. split; [by apply Inv_timer|]. intros ev Hin. by apply elem_of_nil in Hin. }
  apply Forall_calls_of in Hall as (Hbefore & Hduring & Hlater).
  rewrite resample_loop_cons, tick_unfold.
  set (first := default (mkMeanwhile [] []) (head others)) in *.
  set (before := foldl call (with_timer self timer) (before_gather first)).
  set (after := foldl call _ (during_gather first)).
  assert (Hinv_before : Inv before).
  { apply calls_invariant; [exact Hbefore|]. by apply Inv_timer. }
  assert (Hinv_after : Inv after).
  { apply calls_invariant; [exact Hduring|]. by apply Inv_gather. }
  assert (Htick : ∀ ev, ev ∈ (gather (_resamplers before) timestamp).2 →
            ∃ s timestamp',
              Inv s ∧ timestamp' ∈ timestamp :: timer ∧
              ev ∈ (gather (_resamplers s) timestamp').2).
  { intros ev Hev. exists before, timestamp. split; [exact Hinv_before|].
    split; [by left | exact Hev]. }
  destruct (exceptions_of _ _) as [exceptions|e]; [|by split].
  destruct (decide (exceptions = ∅)); [|by split].
  destruct one_shot; [by split|].
  destruct (IH (tail others) after Hlater Hinv_after) as [Hfinal Hevents].
  destruct (resample_loop false timer (tail others) after) as [[outcome later] more].
  simpl in *. split; [exact Hfinal|]. intros ev Hin.
  apply elem_of_app in Hin as [Hin|Hin]; [by apply Htick|].
  destruct (Hevents ev Hin) as (s & timestamp' & Hs & Ht & Hev).
  exists s, timestamp'. split; [exact Hs|]. split; [by right | exact Hev].
Qed.

End LoopInvariant.

(** The calls that are not [remove_timeseries(source)] keep the
    registration of [source]. *)
Lemma call_registered (self : Resampler.t) (c : Call) (source : Source) :
  keeps source c → registered self source → registered (Resampler.call self c) source.
Proof.
  unfold registered, keeps. intros Hc Hs.
  destruct c as [other sink|other| |other ev]; simpl.
  - unfold Resampler.add_timeseries.
    destruct (Resampler._resamplers self !! other) eqn:Ho; simpl; [exact Hs|].
    destruct (decide (source = other)) as [->|Hne].
    + rewrite dict_lookup_setitem_eq. eauto.
    + by rewrite dict_lookup_setitem_ne.
  - unfold Resampler.remove_timeseries.
    destruct (Resampler._resamplers self !! other) eqn:Ho; simpl; [|exact Hs].
    rewrite dict_lookup_delitem_ne; [exact Hs|]. intros ->. by apply Hc.
  - rewrite dict_lookup_map. by apply fmap_is_Some.
  - rewrite dict_lookup_alter. case_decide; [by apply fmap_is_Some | exact Hs].
Qed.

Lemma gather_registered (self : Resampler.t) (t : Z) (source : Source) :
  registered self source →
  registered
    (Resampler.with_resamplers self (Resampler.gather (Resampler._resamplers self) t).1.2)
    source.
Proof.
  unfold registered. simpl. rewrite dict_lookup_map. by apply fmap_is_Some.
Qed.

(** C10.  [stop] and the registry.  [Resampler.stop] stops the helper of
    every entry, after which no receiving task is running, and it keeps
    the registry's keys: a source registered before is registered after,
    [add_timeseries] on it still answers [False] and [remove_timeseries]
    still answers [True].  Of the operations of the [Resampler], none but
    [remove_timeseries] of that very source ends a registration: not
    [add_timeseries], not [remove_timeseries] of another source, and not
    [resample], whatever else other tasks call in its course. *)
Theorem stop_keeps_registry (self : Resampler.t) :
  let stopped := Resampler.stop self in
  (∀ source,
     Resampler._resamplers stopped !! source =
     _StreamingHelper.stop <$> Resampler._resamplers self !! source) ∧
  dict.keys (Resampler._resamplers stopped) = dict.keys (Resampler._resamplers self) ∧
  (∀ source r,
     Resampler._resamplers stopped !! source = Some r →
     _StreamingHelper._receiving_task r ≠ Pending) ∧
  (∀ source, registered stopped source ↔ registered self source) ∧
  (∀ source sink,
     registered self source →
     (Resampler.add_timeseries stopped source sink).1 = false ∧
     (Resampler.remove_timeseries stopped source).1 = true) ∧
  (∀ source,
     registered self source →
     (∀ other sink, registered (Resampler.add_timeseries self other sink).2 source) ∧
     (∀ one_shot others,
        Forall (keeps source) (calls_of others) →
        registered (Resampler.resample self one_shot others).1.2 source) ∧
     (∀ other, other ≠ source →
        registered (Resampler.remove_timeseries self other).2 source)).
Proof.
  intros stopped.
  assert (Hlookup : ∀ source,
            Resampler._resamplers stopped !! source =
            _StreamingHelper.stop <$> Resampler._resamplers self !! source).
  { intros source. subst stopped. unfold Resampler.stop. simpl. apply dict_lookup_map. }
  assert (Hreg : ∀ source, registered stopped source ↔ registered self source).
  { intros source. unfold registered. rewrite Hlookup. apply fmap_is_Some. }
  split; [exact Hlookup|]. split; [apply dict_keys_map|].
  split; [|split; [exact Hreg|split]].
  - intros source r. rewrite Hlookup. intros Hr.
    apply fmap_Some in Hr as (r0 & _ & ->). simpl.
    by destruct (_StreamingHelper._receiving_task r0).
  - intros source sink Hs. apply Hreg in Hs. destruct Hs as [r Hr].
    unfold Resampler.add_timeseries, Resampler.remove_timeseries. by rewrite Hr.
  - intros source Hs. split; [|split].
    + intros other sink.
      apply (call_registered self (AddTimeseries other sink) source); [done | exact Hs].
    + intros one_shot others Hkeep. unfold Resampler.resample.
      apply (resample_loop_invariant (λ s, registered s source) (keeps source));
        [| | |exact Hkeep|exact Hs].
      * intros s c Hc. by apply call_registered.
      * intros s t. apply gather_registered.
      * by intros s timer.
    + intros other Hne.
      apply (call_registered self (RemoveTimeseries other) source); [|exact Hs].
      intros [= ->]. by apply Hne.
Qed.

(** * Further properties *)

(** ** [average]: every outcome *)

Lemma non_none_values_nil (samples : list Sample) :
  non_none_values samples = [] ↔ Forall (λ s, value s = None) samples.
Proof.
  split; [|apply non_none_values_all_none].
  induction samples as [|sample samples IH]; simpl; [constructor|].
  destruct (value sample) eqn:Hv; [discriminate|].
  intros Hnil. constructor; [exact Hv | by apply IH].
Qed.

(** X1.  The outcomes of [average].  It raises [AssertionError] exactly on
    the empty sequence, [ZeroDivisionError] exactly on a sequence that is
    not empty and has no value but [None], and returns a value exactly when
    some sample has a value that is not [None]. *)
Theorem average_outcomes (samples : list Sample) (p : float) :
  (average samples p = Raise AssertionError ↔ samples = []) ∧
  (average samples p = Raise ZeroDivisionError ↔
     samples ≠ [] ∧ Forall (λ s, value s = None) samples) ∧
  ((∃ v, average samples p = Ok v) ↔ ∃ s, s ∈ samples ∧ value s ≠ None).
Proof.
  rewrite average_unfold.
  assert (Hsome : (∃ s, s ∈ samples ∧ value s ≠ None) ↔ non_none_values samples ≠ []).
  { rewrite non_none_values_nil, Forall_forall. split.
    - intros (s & Hin & Hv) Hall. by apply Hv, Hall.
    - intros Hnot.
      destruct (decide (Exists (λ s, value s ≠ None) samples)) as [Hex|Hno].
      + apply Exists_exists in Hex. exact Hex.
      + exfalso. apply Hnot. intros s Hin.
        destruct (value s) eqn:Hv; [|reflexivity].
        exfalso. apply Hno, Exists_exists. exists s. split; [exact Hin|].
        rewrite Hv. discriminate. }
  rewrite Hsome. rewrite <- (non_none_values_nil samples).
  destruct samples as [|sample samples].
  - simpl. repeat split; try done.
    + intros [Hne _]. congruence.
    + intros [v Hv]. discriminate.
  - destruct (non_none_values (sample :: samples)) as [|v values].
    + repeat split; try done. intros [v Hv]. discriminate.
    + repeat split; try done.
      * intros [_ Hnil]. discriminate.
      * intros _. eauto.
Qed.

(** ** [average]: NaN *)

(** There is one NaN, and the additions and the division hand it on. *)
Lemma isnan_nan (x : float) : isnan x = true → x = nan.
Proof.
  unfold isnan. intros Hx. apply Prim2SF_inj.
  unfold Prim2SF at 1. rewrite Hx. reflexivity.
Qed.

Lemma add_nan_l (y : float) : (nan + y)%float = nan.
Proof. apply Prim2SF_inj. rewrite add_spec. reflexivity. Qed.

Lemma add_nan_r (x : float) : (x + nan)%float = nan.
Proof.
  apply Prim2SF_inj. rewrite add_spec.
  change (Prim2SF nan) with S754_nan. by destruct (Prim2SF x) as [[]|[]| |].
Qed.

Lemma div_nan_l (y : float) : (nan / y)%float = nan.
Proof. apply Prim2SF_inj. rewrite div_spec. reflexivity. Qed.

Lemma added_in_turn_nan (values : list float) : added_in_turn nan values = nan.
Proof.
  induction values as [|v values IH]; simpl; [reflexivity|].
  by rewrite add_nan_l.
Qed.

Lemma added_nan (values : list float) (acc : float) :
  nan ∈ values → added_in_turn acc values = nan.
Proof.
  revert acc. induction values as [|v values IH]; intros acc Hin.
  - by apply elem_of_nil in Hin.
  - simpl. apply elem_of_cons in Hin as [<-|Hin].
    + rewrite add_nan_r. apply added_in_turn_nan.
    + by apply IH.
Qed.

Lemma elem_of_non_none_values (samples : list Sample) (v : float) :
  v ∈ non_none_values samples ↔ ∃ s, s ∈ samples ∧ value s = Some v.
Proof.
  induction samples as [|sample samples IH]; simpl.
  - split; [intros Hin; by apply elem_of_nil in Hin|].
    intros (s & Hin & _). by apply elem_of_nil in Hin.
  - destruct (value sample) as [w|] eqn:Hw.
    + rewrite elem_of_cons, IH. split.
      * intros [->|(s & Hin & Hs)]; [exists sample | exists s];
          (split; [|assumption]); [by left | by right].
      * intros (s & Hin & Hs). apply elem_of_cons in Hin as [->|Hin].
        -- left. congruence.
        -- right. eauto.
    + rewrite IH. split.
      * intros (s & Hin & Hs). exists s. split; [by right | exact Hs].
      * intros (s & Hin & Hs). apply elem_of_cons in Hin as [->|Hin];
          [congruence | eauto].
Qed.

(** X2.  One NaN spoils the average: when some sample has the value NaN,
    [average] returns NaN. *)
Theorem average_nan (samples : list Sample) (p : float) (s : Sample) (v : float) :
  s ∈ samples → value s = Some v → isnan v = true →
  average samples p = Ok nan ∧ isnan nan = true.
Proof.
  intros Hin Hv Hnan. split; [|reflexivity].
  apply isnan_nan in Hnan. subst v. rewrite average_unfold.
  assert (Hvalues : nan ∈ non_none_values samples).
  { apply elem_of_non_none_values. eauto. }
  destruct samples as [|sample samples]; [by apply elem_of_nil in Hin|].
  destruct (non_none_values (sample :: samples)) as [|w values] eqn:Hvalues';
    [by apply elem_of_nil in Hvalues|].
  unfold rounded_mean. by rewrite (added_nan _ _ Hvalues), div_nan_l.
Qed.

Lemma average_nan_example :
  let samples := [mkSample 0 (Some 1%float); mkSample 1 (Some (0 / 0)%float)] in
  mkSample 1 (Some (0 / 0)%float) ∈ samples ∧ isnan (0 / 0) = true ∧
  average samples 1 = Ok nan.
Proof.
  intros samples.
  assert (Hin : mkSample 1 (Some (0 / 0)%float) ∈ samples) by (right; left).
  assert (Hnan : isnan (0 / 0) = true) by reflexivity.
  split; [exact Hin|]. split; [exact Hnan|].
  exact (proj1 (average_nan samples 1%float _ _ Hin eq_refl Hnan)).
Defined.

(** ** The window, without an assumption on its order *)

Section Window.
Import _ResamplingHelper.

(** The loop empties the buffer exactly when no sample is newer than the
    threshold. *)
Lemma popleft_outdated_nil (threshold : Z) (buffer : list Sample) :
  popleft_outdated threshold buffer = [] ↔
  Forall (λ s, timestamp s ≤ threshold) buffer.
Proof.
  induction buffer as [|sample rest IH]; simpl.
  - split; [constructor | reflexivity].
  - case_decide as Hnew.
    + split; [discriminate|]. intros Hall. apply Forall_cons in Hall as [Hle _]. lia.
    + rewrite IH. split; [constructor; [lia | assumption]|].
      intros Hall. by apply Forall_cons in Hall as [_ ?].
Qed.

(** The loop pops nothing from a buffer whose first sample is newer than
    the threshold. *)
Lemma popleft_outdated_fresh_head (threshold : Z) (buffer : list Sample) :
  match buffer with
  | [] => True
  | sample :: _ => threshold < timestamp sample
  end →
  popleft_outdated threshold buffer = buffer.
Proof.
  destruct buffer as [|sample rest]; simpl; [reflexivity|].
  intros Hnew. by rewrite decide_True.
Qed.

(** Popping for a threshold and then for a later one is popping for the
    later one. *)
Lemma popleft_outdated_twice (threshold threshold' : Z) (buffer : list Sample) :
  threshold ≤ threshold' →
  popleft_outdated threshold' (popleft_outdated threshold buffer) =
  popleft_outdated threshold' buffer.
Proof.
  intros Hle. induction buffer as [|sample rest IH]; simpl; [reflexivity|].
  case_decide as Hnew.
  - reflexivity.
  - rewrite IH. by rewrite decide_False by lia.
Qed.

(** The threshold depends on the configuration only, and [resample] keeps
    the configuration. *)
Lemma threshold_at_config (self self' : t) (timestamp : Z) :
  _resampling_period_s self' = _resampling_period_s self →
  _max_data_age_in_periods self' = _max_data_age_in_periods self →
  threshold_at self' timestamp = threshold_at self timestamp.
Proof. unfold threshold_at, max_data_age. by intros -> ->. Qed.

Lemma threshold_at_resample (self : t) (timestamp timestamp' : Z) :
  threshold_at (resample self timestamp).1.2 timestamp' = threshold_at self timestamp'.
Proof.
  pose proof (helper_resample_config self timestamp) as (Hp & Hm & _).
  by apply threshold_at_config.
Qed.

Lemma threshold_at_mono (self : t) (timestamp timestamp' threshold threshold' : Z) :
  timestamp ≤ timestamp' →
  threshold_at self timestamp = Ok threshold →
  threshold_at self timestamp' = Ok threshold' →
  threshold ≤ threshold'.
Proof.
  intros Hle H1 H2.
  apply threshold_at_Ok in H1 as (delta & Hd & -> & _).
  apply threshold_at_Ok in H2 as (delta' & Hd' & -> & _).
  rewrite Hd in Hd'. injection Hd' as <-. lia.
Qed.

End Window.

(** X3.  No datum, no value.  When [resample] computes its threshold, it
    returns the sample without a value exactly when no sample of the
    buffer is newer than that threshold, and the window is then empty;
    this holds for every buffer and every resampling function.  When it
    cannot compute the threshold, it raises. *)
Theorem resample_none_iff_all_outdated (self : _ResamplingHelper.t) (t : Z) :
  let '(result, self', _) := _ResamplingHelper.resample self t in
  match _ResamplingHelper.threshold_at self t with
  | Ok threshold =>
      (result = Ok (mkSample t None) ↔
       Forall (λ s, timestamp s ≤ threshold) (_ResamplingHelper._buffer self)) ∧
      (result = Ok (mkSample t None) → _ResamplingHelper._buffer self' = [])
  | Raise e => result = Raise e ∧ self' = self
  end.
Proof.
  unfold _ResamplingHelper.resample.
  destruct (_ResamplingHelper.threshold_at self t) as [threshold|e]; [|done].
  pose proof (popleft_outdated_nil threshold (_ResamplingHelper._buffer self)) as Hnil.
  simpl.
  destruct (_ResamplingHelper.popleft_outdated threshold _) as [|s l] eqn:Hb.
  - simpl. split; [|done]. split; [intros _; by apply Hnil | done].
  - assert (Hnot : ¬ Forall (λ s, timestamp s ≤ threshold)
                       (_ResamplingHelper._buffer self)).
    { intros Hall. apply Hnil in Hall. discriminate. }
    destruct (_ResamplingHelper._resampling_function self (s :: l) _); simpl.
    + split; [split; [discriminate | contradiction] | discriminate].
    + split; [split; [discriminate | contradiction] | discriminate].
Qed.

(** X4.  Eviction is safe on every buffer.  Whatever the order of the
    buffer, the window [resample] leaves is a suffix of it; when the call
    computes its threshold, every evicted sample is at or below it, and the
    first retained sample is newer than it: a sample newer than the
    threshold is never evicted, and an outdated sample is kept only behind
    a newer one.  When the call cannot compute the threshold, nothing is
    evicted. *)
Theorem eviction_safe_any_order (self : _ResamplingHelper.t) (t : Z) :
  let retained := _ResamplingHelper._buffer (_ResamplingHelper.resample self t).1.2 in
  ∃ evicted,
    _ResamplingHelper._buffer self = evicted ++ retained ∧
    match _ResamplingHelper.threshold_at self t with
    | Ok threshold =>
        Forall (λ s, timestamp s ≤ threshold) evicted ∧
        match retained with
        | [] => True
        | sample :: _ => threshold < timestamp sample
        end
    | Raise _ => evicted = []
    end.
Proof.
  intros retained. subst retained. rewrite helper_resample_buffer.
  destruct (_ResamplingHelper.threshold_at self t) as [threshold|e].
  - destruct (popleft_outdated_split threshold (_ResamplingHelper._buffer self))
      as (evicted & Hsplit & Hold).
    exists evicted. split; [exact Hsplit|]. split; [exact Hold|].
    apply popleft_outdated_head.
  - by exists [].
Qed.

(** X5.  Eviction composes.  For [t <= t'], when [resample t'] computes
    its threshold, the window after [resample t] followed by
    [resample t'] is the window after [resample t'] alone; calling
    [resample] again for the same or an earlier time removes nothing. *)
Theorem eviction_composes (self : _ResamplingHelper.t) (t t' threshold' : Z) :
  t ≤ t' →
  _ResamplingHelper.threshold_at self t' = Ok threshold' →
  let self1 := (_ResamplingHelper.resample self t).1.2 in
  _ResamplingHelper._buffer (_ResamplingHelper.resample self1 t').1.2 =
    _ResamplingHelper._buffer (_ResamplingHelper.resample self t').1.2 ∧
  let self2 := (_ResamplingHelper.resample self t').1.2 in
  _ResamplingHelper._buffer (_ResamplingHelper.resample self2 t).1.2 =
    _ResamplingHelper._buffer self2.
Proof.
  intros Hle Hthr' self1. split.
  - subst self1. rewrite !helper_resample_buffer, threshold_at_resample, Hthr'.
    destruct (_ResamplingHelper.threshold_at self t) as [threshold|e] eqn:Hthr;
      [|reflexivity].
    apply popleft_outdated_twice. by eapply threshold_at_mono.
  - intros self2. subst self2.
    rewrite !helper_resample_buffer, threshold_at_resample, Hthr'.
    destruct (_ResamplingHelper.threshold_at self t) as [threshold|e] eqn:Hthr;
      [|reflexivity].
    apply popleft_outdated_fresh_head.
    pose proof (popleft_outdated_head threshold' (_ResamplingHelper._buffer self))
      as Hhead.
    destruct (_ResamplingHelper.popleft_outdated _ _) as [|sample rest]; [exact I|].
    pose proof (threshold_at_mono self t t' threshold threshold' Hle Hthr Hthr'). lia.
Qed.

Lemma eviction_composes_example :
  let t := 63800000000000000 in
  let self :=
    _ResamplingHelper.mk 1 3
      [mkSample (t - 2000000) (Some 10%float); mkSample (t + 1000000) (Some 20%float);
       mkSample (t + 3000000) (Some 30%float)] average in
  t + 2000000 ≤ t + 5000000 ∧
  _ResamplingHelper.threshold_at self (t + 5000000) = Ok (t + 2000000) ∧
  _ResamplingHelper._buffer
    (_ResamplingHelper.resample
       (_ResamplingHelper.resample self (t + 2000000)).1.2 (t + 5000000)).1.2 =
  _ResamplingHelper._buffer (_ResamplingHelper.resample self (t + 5000000)).1.2.
Proof.
  intros t self.
  assert (Hle : t + 2000000 ≤ t + 5000000) by lia.
  assert (Hthr : _ResamplingHelper.threshold_at self (t + 5000000) = Ok (t + 2000000)).
  { vm_compute. reflexivity. }
  split; [exact Hle|]. split; [exact Hthr|].
  exact (proj1 (eviction_composes self _ _ _ Hle Hthr)).
Defined.

(** ** The receiving task, from the first sample to the end of the source *)

Section Receiving.
Import _StreamingHelper.

(** A call of [resample] on a helper keeps its source, its sink and the
    configuration of its window. *)
Lemma streaming_resample_frame (r : t) (timestamp : Z) :
  let r' := (resample r timestamp).1.2 in
  _source r' = _source r ∧
  _receiving_task r' = _receiving_task r ∧
  _ResamplingHelper._resampling_period_s (_helper r') =
    _ResamplingHelper._resampling_period_s (_helper r) ∧
  _ResamplingHelper._max_data_age_in_periods (_helper r') =
    _ResamplingHelper._max_data_age_in_periods (_helper r) ∧
  _ResamplingHelper._resampling_function (_helper r') =
    _ResamplingHelper._resampling_function (_helper r).
Proof.
  unfold resample. destruct (done _).
  { by destruct (exception _) as [[?|]|]. }
  pose proof (helper_resample_config (_helper r) timestamp) as (Hp & Hm & Hf).
  by destruct (_ResamplingHelper.resample _ _) as [[[sample|e] helper] calls].
Qed.

Lemma receive_samples_frame (r : t) (ev : SourceEvent) :
  let r' := _receive_samples r ev in
  _source r' = _source r ∧
  _ResamplingHelper._resampling_period_s (_helper r') =
    _ResamplingHelper._resampling_period_s (_helper r) ∧
  _ResamplingHelper._max_data_age_in_periods (_helper r') =
    _ResamplingHelper._max_data_age_in_periods (_helper r) ∧
  _ResamplingHelper._resampling_function (_helper r') =
    _ResamplingHelper._resampling_function (_helper r).
Proof.
  unfold _receive_samples.
  destruct (_receiving_task r); try done.
  destruct ev as [sample| |e]; try done.
  destruct (value sample) as [v|]; [|done]. by destruct (negb (isnan v)).
Qed.

(** A receiving task that is running was running before. *)
Lemma receive_samples_pending (r : t) (ev : SourceEvent) :
  _receiving_task (_receive_samples r ev) = Pending → _receiving_task r = Pending.
Proof.
  unfold _receive_samples.
  destruct (_receiving_task r) eqn:Htask; [reflexivity|..]; rewrite Htask; discriminate.
Qed.

Lemma stop_not_pending (r : t) : _receiving_task (stop r) ≠ Pending.
Proof. unfold stop. simpl. by destruct (_receiving_task r). Qed.

(** The configuration of the window never changes. *)
Lemma act_config (self : t) (a : Activity) :
  _ResamplingHelper._resampling_period_s (_helper (act self a).1) =
    _ResamplingHelper._resampling_period_s (_helper self) ∧
  _ResamplingHelper._max_data_age_in_periods (_helper (act self a).1) =
    _ResamplingHelper._max_data_age_in_periods (_helper self).
Proof.
  destruct a as [ev|timestamp|]; simpl.
  - by pose proof (receive_samples_frame self ev) as (_ & -> & -> & _).
  - pose proof (streaming_resample_frame self timestamp) as (_ & _ & Hp & Hm & _).
    by destruct (resample self timestamp) as [[outcome self'] calls].
  - done.
Qed.

Lemma run_cons_fst (self : t) (a : Activity) (activities : list Activity) :
  (run self (a :: activities)).1 = (run (act self a).1 activities).1.
Proof.
  simpl. destruct (act self a) as [self' calls]. simpl.
  by destruct (run self' activities).
Qed.

Lemma run_config (self : t) (activities : list Activity) :
  _ResamplingHelper._resampling_period_s (_helper (run self activities).1) =
    _ResamplingHelper._resampling_period_s (_helper self) ∧
  _ResamplingHelper._max_data_age_in_periods (_helper (run self activities).1) =
    _ResamplingHelper._max_data_age_in_periods (_helper self).
Proof.
  revert self. induction activities as [|a activities IH]; intros self; [done|].
  rewrite run_cons_fst. destruct (IH (act self a).1) as [-> ->].
  apply act_config.
Qed.

(** A running task that sees [events] appends the received samples that
    have a number, in their order, and ends as the source ends. *)
Lemma run_receiving (self : t) (events : list SourceEvent) :
  _receiving_task self = Pending →
  let self' := (run self (SourcePulled <$> events)).1 in
  _ResamplingHelper._buffer (_helper self') =
    _ResamplingHelper._buffer (_helper self) ++
      filter (λ s, has_number s = true) (received events) ∧
  _receiving_task self' = task_after events.
Proof.
  revert self. induction events as [|ev events IH]; intros self Htask self'.
  - subst self'. simpl. by rewrite app_nil_r.
  - subst self'. rewrite fmap_cons. cbn [run act].
    destruct ev as [sample| |e].
    + pose proof (receive_samples_buffer self (Yield sample)) as Hbuf.
      assert (Htask' : _receiving_task (_receive_samples self (Yield sample)) = Pending).
      { unfold _receive_samples. rewrite Htask.
        destruct (value sample) as [v|]; [|done]. by destruct (negb (isnan v)). }
      specialize (IH _ Htask'). simpl in IH.
      destruct (run (_receive_samples self (Yield sample)) (SourcePulled <$> events))
        as [self'' more]. simpl in *.
      destruct IH as [-> ->]. split; [|reflexivity].
      rewrite Hbuf, Htask. simpl. rewrite filter_cons.
      destruct (has_number sample) eqn:Hnum.
      * rewrite decide_True by done. by rewrite <- app_assoc.
      * rewrite decide_False by done. reflexivity.
    + rewrite run_done; [|unfold _receive_samples; by rewrite Htask].
      simpl. unfold _receive_samples. rewrite Htask. simpl.
      by rewrite filter_nil, app_nil_r.
    + rewrite run_done; [|unfold _receive_samples; by rewrite Htask].
      simpl. unfold _receive_samples. rewrite Htask. simpl.
      by rewrite filter_nil, app_nil_r.
Qed.

(** The window is always made of samples it had or the source yielded, in
    their order. *)
Lemma run_sublist (self : t) (activities : list Activity) :
  _ResamplingHelper._buffer (_helper (run self activities).1)
    `sublist_of` _ResamplingHelper._buffer (_helper self) ++ yields_of activities.
Proof.
  revert self. induction activities as [|a activities IH]; intros self.
  { simpl. by rewrite app_nil_r. }
  rewrite run_cons_fst. etrans; [apply IH|].
  destruct a as [ev|timestamp|]; simpl.
  - rewrite receive_samples_buffer. destruct ev as [sample| |e]; simpl; try done.
    destruct (negb _ && has_number sample).
    + by rewrite <- app_assoc.
    + apply sublist_app; [done|]. by apply sublist_cons.
  - destruct (streaming_resample_suffix self timestamp) as (evicted & Hsplit).
    destruct (resample self timestamp) as [[outcome s] c].
    simpl in *. rewrite Hsplit.
    by apply sublist_app; [apply sublist_inserts_l|].
  - done.
Qed.

End Receiving.

Lemma StronglySorted_sublist {A : Type} (R : relation A) (l k : list A) :
  l `sublist_of` k → StronglySorted R k → StronglySorted R l.
Proof.
  induction 1 as [|x l k Hsub IH|x l k Hsub IH]; intros Hs.
  - constructor.
  - apply StronglySorted_inv in Hs as [Hs Hall]. constructor; [by apply IH|].
    rewrite Forall_forall in Hall |- *. intros y Hy.
    apply Hall. eapply elem_of_sublist; eassumption.
  - apply StronglySorted_inv in Hs as [Hs _]. by apply IH.
Qed.

Lemma ascending_sublist (l k : list Sample) :
  l `sublist_of` k → ascending k → ascending l.
Proof.
  unfold ascending. intros Hsub Hs.
  assert (Htrans : Transitive (λ a b : Sample, timestamp a ≤ timestamp b)).
  { intros a b c Hab Hbc. lia. }
  apply StronglySorted_Sorted, (StronglySorted_sublist _ _ _ Hsub).
  by apply Sorted_StronglySorted.
Qed.

(** X6.  The receiving task as a whole.  A helper that was just created
    and whose source does [events] holds in its window the samples the
    source yielded before it ended or raised, without those whose value is
    [None] or NaN, in the order of the source; and its task is running,
    finished, or failed with the error of the source, as the source is. *)
Theorem receiving_task_whole (period max_age : float) (function : ResamplingFunction)
    (source : Source) (sink : Sink) (events : list SourceEvent) :
  let fresh :=
    _StreamingHelper.__init__
      (_ResamplingHelper.__init__ period max_age function) source sink in
  let self :=
    (_StreamingHelper.run fresh (_StreamingHelper.SourcePulled <$> events)).1 in
  _ResamplingHelper._buffer (_StreamingHelper._helper self) =
    filter (λ s, has_number s = true) (received events) ∧
  _StreamingHelper._receiving_task self = task_after events.
Proof.
  intros fresh self. subst self.
  by destruct (run_receiving fresh events eq_refl) as [-> ->].
Qed.

(** X7.  A source in order keeps the window in order.  When the timestamps
    of the samples a source yields never decrease, the window of its
    helper is in ascending order after any activity, and every sample
    [resample t] passes to the resampling function is newer than the
    threshold of that call, [t] less [timedelta(seconds=max_age * period)]:
    the function never sees a sample the call holds for outdated. *)
Theorem window_in_order (period max_age : float) (function : ResamplingFunction)
    (source : Source) (sink : Sink)
    (activities : list _StreamingHelper.Activity) (t : Z) :
  ascending (yields_of activities) →
  let fresh :=
    _StreamingHelper.__init__
      (_ResamplingHelper.__init__ period max_age function) source sink in
  let self := (_StreamingHelper.run fresh activities).1 in
  ascending (_ResamplingHelper._buffer (_StreamingHelper._helper self)) ∧
  ∀ samples p,
    ResamplingFunctionCall samples p ∈ (_StreamingHelper.resample self t).2 →
    ∃ delta,
      timedelta (max_age * period)%float = Ok delta ∧
      Forall (λ s, t - delta < timestamp s) samples.
Proof.
  intros Hyields fresh self.
  assert (Hasc : ascending (_ResamplingHelper._buffer (_StreamingHelper._helper self))).
  { eapply ascending_sublist; [apply (run_sublist fresh activities)|]. exact Hyields. }
  split; [exact Hasc|]. intros samples p Hcall.
  pose proof (streaming_resample_calls self t samples p Hcall) as ->.
  pose proof (run_config fresh activities) as [Hp Hm]. fold self in Hp, Hm.
  simpl in Hp, Hm.
  unfold _StreamingHelper.resample in *.
  destruct (done _).
  { destruct (exception _) as [[?|]|]; by apply elem_of_nil in Hcall. }
  pose proof (helper_resample_buffer (_StreamingHelper._helper self) t) as Hbuf.
  pose proof (helper_resample_raises (_StreamingHelper._helper self) t) as Hraise.
  pose proof (threshold_at_Ok (_StreamingHelper._helper self) t) as Hok.
  destruct (_ResamplingHelper.threshold_at (_StreamingHelper._helper self) t)
    as [threshold|e].
  - destruct (proj1 (Hok threshold) eq_refl) as (delta & Hdelta & -> & _).
    unfold _ResamplingHelper.max_data_age in Hdelta. rewrite Hp, Hm in Hdelta.
    exists delta. split; [exact Hdelta|].
    assert (Hret : Forall (λ s, t - delta < timestamp s)
              (_ResamplingHelper.popleft_outdated (t - delta)
                 (_ResamplingHelper._buffer (_StreamingHelper._helper self)))).
    { by apply popleft_outdated_retained. }
    destruct (_ResamplingHelper.resample _ t) as [[[sample|e] helper] calls];
      simpl in *; by rewrite Hbuf.
  - rewrite (Hraise e eq_refl) in Hcall. simpl in Hcall. by apply elem_of_nil in Hcall.
Qed.

Lemma window_in_order_example :
  let t := 63800000000000000 in
  let activities :=
    [_StreamingHelper.SourcePulled (Yield (mkSample (t - 2000000) (Some 10%float)));
     _StreamingHelper.SourcePulled (Yield (mkSample (t - 1000000) (Some nan)));
     _StreamingHelper.ResampleCalled t;
     _StreamingHelper.SourcePulled (Yield (mkSample (t + 1000000) (Some 20%float)))] in
  let self :=
    (_StreamingHelper.run
       (_StreamingHelper.__init__ (_ResamplingHelper.__init__ 1 3 average) 0%nat
          (λ _, Ok tt))
       activities).1 in
  ascending (yields_of activities) ∧
  ascending (_ResamplingHelper._buffer (_StreamingHelper._helper self)).
Proof.
  intros t activities self.
  assert (Hs : ascending (yields_of activities)).
  { unfold ascending. simpl. repeat constructor; simpl; lia. }
  split; [exact Hs|].
  exact (proj1 (window_in_order 1 3 average 0%nat (λ _, Ok tt) activities
                  (t + 2000000) Hs)).
Defined.

(** ** Registrations, one after the other *)

(** X8.  Registering twice, and registering then removing.  For a source
    that is not registered, [add_timeseries] answers [True] and a second
    [add_timeseries] of it answers [False] and changes nothing, even with
    another sink; [remove_timeseries] then answers [True] and gives back the
    [Resampler] as it was before the registration, and a second
    [remove_timeseries] answers [False]. *)
Theorem registration_round_trip (self : Resampler.t) (source : Source)
    (sink sink' : Sink) :
  Resampler._resamplers self !! source = None →
  let '(added, self1) := Resampler.add_timeseries self source sink in
  added = true ∧
  Resampler.add_timeseries self1 source sink' = (false, self1) ∧
  Resampler.remove_timeseries self1 source = (true, self) ∧
  Resampler.remove_timeseries self source = (false, self).
Proof.
  intros Hnone. unfold Resampler.add_timeseries, Resampler.remove_timeseries.
  destruct self as [period max_age function resamplers timer]. simpl in *.
  rewrite Hnone. simpl. rewrite dict_lookup_setitem_eq. simpl.
  split; [reflexivity|]. split; [reflexivity|]. split; [|reflexivity].
  unfold Resampler.with_resamplers. simpl.
  by rewrite dict_delitem_setitem by exact Hnone.
Qed.

Lemma registration_round_trip_example :
  let self :=
    Resampler.call (Resampler.__init__ 1 average 3 [10; 11])
      (AddTimeseries 3%nat (λ _, Ok tt)) in
  Resampler._resamplers self !! 7%nat = None ∧
  Resampler.remove_timeseries
    (Resampler.add_timeseries self 7%nat (λ _, Ok tt)).2 7%nat = (true, self).
Proof.
  intros self.
  assert (Hnone : Resampler._resamplers self !! 7%nat = None) by reflexivity.
  split; [exact Hnone|].
  exact (proj1 (proj2 (proj2
           (registration_round_trip self 7%nat (λ _, Ok tt) (λ _, Ok tt) Hnone)))).
Defined.

(** ** What every use of a [Resampler] keeps *)

Section Consistent.
Import Resampler.
Variables (period max_age : float) (function : ResamplingFunction).

Lemma call_sound (self : t) (c : Call) : sound period max_age function self →
  sound period max_age function (call self c).
Proof.
  intros (Hp & Hm & Hf & Hall).
  pose proof (call_frame self c) as (_ & Hp' & Hm' & Hf').
  split; [congruence|]. split; [congruence|]. split; [congruence|].
  clear Hp' Hm' Hf'.
  destruct c as [source sink|source| |source ev]; simpl.
  - unfold add_timeseries.
    destruct (_resamplers self !! source) eqn:Hl; simpl; [exact Hall|].
    intros s r. destruct (decide (s = source)) as [->|Hne].
    + rewrite dict_lookup_setitem_eq. intros [= <-]. simpl.
      repeat split; try assumption. constructor.
    + rewrite dict_lookup_setitem_ne by exact Hne. apply Hall.
  - unfold remove_timeseries.
    destruct (_resamplers self !! source) eqn:Hl; simpl; [|exact Hall].
    intros s r. destruct (decide (s = source)) as [->|Hne].
    + by rewrite dict_lookup_delitem_eq.
    + rewrite dict_lookup_delitem_ne by exact Hne. apply Hall.
  - intros s r. rewrite dict_lookup_map. intros Hr.
    apply fmap_Some in Hr as (r0 & Hr0 & ->). simpl. by apply Hall.
  - intros s r. rewrite dict_lookup_alter. case_decide as Hs; [|apply Hall].
    intros Hr. apply fmap_Some in Hr as (r0 & Hr0 & ->).
    destruct (Hall _ _ Hr0) as (H1 & H2 & H3 & H4 & H5).
    pose proof (receive_samples_frame r0 ev) as (-> & -> & -> & ->).
    repeat split; try assumption. by apply receive_samples_numbers.
Qed.

Lemma gather_sound (self : t) (timestamp : Z) :
  sound period max_age function self →
  sound period max_age function
    (with_resamplers self (gather (_resamplers self) timestamp).1.2).
Proof.
  intros (Hp & Hm & Hf & Hall). repeat split; try assumption; simpl in H;
    rewrite dict_lookup_map in H; apply fmap_Some in H as (r0 & Hr0 & ->);
    destruct (Hall _ _ Hr0) as (H1 & H2 & H3 & H4 & H5);
    pose proof (streaming_resample_frame r0 timestamp) as (Hs & _ & Hp' & Hm' & Hf');
    simpl in *; try congruence.
  by apply streaming_resample_buffer.
Qed.

Lemma use_sound (self : t) (u : Use) : sound period max_age function self → sound period max_age function (use self u).
Proof.
  intros Hsound. destruct u as [c|one_shot others]; simpl.
  - by apply call_sound.
  - unfold resample.
    apply (resample_loop_invariant (sound period max_age function) (λ _, True)); try assumption.
    + intros s c _. apply call_sound.
    + apply gather_sound.
    + by intros s timer.
    + apply Forall_forall. done.
Qed.

End Consistent.

(** X10.  The registry stays consistent.  After any sequence of uses of a
    new [Resampler] (its methods, [resample] among them with what other
    tasks do in its course, and the receiving tasks of its helpers
    running), every helper is registered under its own source, and its
    window has the period, the maximal age and the resampling function
    the [Resampler] was created with and holds no sample whose value is
    [None] or NaN. *)
Theorem registry_consistent (period max_age : float) (function : ResamplingFunction)
    (timer : list Z) (uses : list Use) (source : Source)
    (r : _StreamingHelper.t) :
  let self := foldl use (Resampler.__init__ period function max_age timer) uses in
  Resampler._resamplers self !! source = Some r →
  consistent self ∧
  _StreamingHelper._source r = source ∧
  _ResamplingHelper._resampling_period_s (_StreamingHelper._helper r) = period ∧
  _ResamplingHelper._max_data_age_in_periods (_StreamingHelper._helper r) = max_age ∧
  _ResamplingHelper._resampling_function (_StreamingHelper._helper r) = function ∧
  numbers_only (_ResamplingHelper._buffer (_StreamingHelper._helper r)).
Proof.
  intros self.
  assert (Hinv : ∀ (uses : list Use) (self0 : Resampler.t),
            sound period max_age function self0 →
            sound period max_age function (foldl use self0 uses)).
  { clear. induction uses as [|u uses IH]; intros self0 H0; [done|].
    simpl. by apply IH, use_sound. }
  destruct (Hinv uses (Resampler.__init__ period function max_age timer))
    as (Hp & Hm & Hf & Hall).
  { repeat split; simpl in *; by rewrite ?dict_lookup_empty in *. }
  fold self in Hp, Hm, Hf, Hall.
  intros Hr. split.
  - intros s r' Hr'. rewrite Hp, Hm, Hf.
    by destruct (Hall _ _ Hr') as (H1 & H2 & H3 & H4 & _).
  - by apply Hall.
Qed.

Lemma registry_consistent_example :
  let t := 63800000000000000 in
  let uses :=
    [Does (AddTimeseries 7%nat (λ _, Ok tt));
     Does (ReceivingTask 7%nat (Yield (mkSample (t - 1000000) (Some 4%float))));
     Does (ReceivingTask 7%nat (Yield (mkSample (t - 1000000) (Some nan))));
     Resample true [mkMeanwhile [] [AddTimeseries 8%nat (λ _, Ok tt)]]] in
  let self := foldl use (Resampler.__init__ 1 average 3 [t; t + 1000000]) uses in
  ∃ r,
    Resampler._resamplers self !! 7%nat = Some r ∧
    _StreamingHelper._source r = 7%nat ∧
    numbers_only (_ResamplingHelper._buffer (_StreamingHelper._helper r)).
Proof.
  intros t uses self.
  destruct (Resampler._resamplers self !! 7%nat) as [r|] eqn:Hr;
    [|vm_compute in Hr; discriminate Hr].
  exists r. split; [reflexivity|].
  pose proof (registry_consistent 1 3 average [t; t + 1000000] uses 7%nat r Hr)
    as (_ & H1 & _ & _ & _ & H5).
  split; [exact H1 | exact H5].
Defined.

(** ** The loop of [Resampler.resample] *)

Section LoopOutcome.
Import Resampler.

(** After a round of the loop the timer holds the ticks that are left. *)
Lemma tick_timer (self : t) (timestamp : Z) (others : Meanwhile) :
  _timer (tick self timestamp others).1.2 = _timer self.
Proof.
  rewrite tick_unfold. cbn [fst snd].
  rewrite (proj1 (calls_frame _ _)). simpl. by rewrite (proj1 (calls_frame _ _)).
Qed.

(** A round of the loop raises only [IndexError], and only when a
    registration was added while [gather] was awaited. *)
Lemma tick_raises (self : t) (timestamp : Z) (others : Meanwhile) (e : Exn) :
  (tick self timestamp others).1.1 = Raise e →
  e = IndexError ∧ ∃ source sink, AddTimeseries source sink ∈ during_gather others.
Proof.
  rewrite tick_unfold. cbn [fst snd]. intros Hex.
  apply exceptions_of_raises in Hex as [-> Hlen]. split; [reflexivity|].
  rewrite gather_length in Hlen.
  assert (Hdec : ∀ c, Decision (adds_nothing c)).
  { intros [| | |]; simpl; apply _. }
  destruct (decide (Forall adds_nothing (during_gather others))) as [Hall|Hnot].
  - apply (calls_length (with_resamplers (foldl call self (before_gather others))
                           (gather (_resamplers (foldl call self (before_gather others)))
                              timestamp).1.2)) in Hall.
    cbn [_resamplers with_resamplers] in Hall. rewrite gather_keys in Hall. lia.
  - apply not_Forall_Exists in Hnot; [|exact Hdec].
    apply Exists_exists in Hnot as ([source sink| | |] & Hin & Hc); simpl in Hc;
      try (exfalso; by apply Hc).
    by exists source, sink.
Qed.

(** How the loop ends: with the timer, after the first tick when
    [one_shot], or at the first tick where an entry is found to have
    failed or where the comprehension raises. *)
Lemma resample_loop_outcome (one_shot : bool) (timer : list Z)
    (others : list Meanwhile) (self : t) :
  let '(outcome, self', _) := resample_loop one_shot timer others self in
  match outcome with
  | Returns => _timer self' = if one_shot then tail timer else []
  | RaisesResamplingError exceptions =>
      exceptions ≠ ∅ ∧ ∃ consumed timestamp, timer = consumed ++ timestamp :: _timer self'
  | Raises e =>
      e = IndexError ∧
      (∃ consumed timestamp, timer = consumed ++ timestamp :: _timer self') ∧
      ∃ m source sink, m ∈ others ∧ AddTimeseries source sink ∈ during_gather m
  end.
Proof.
  revert others self. induction timer as [|timestamp timer IH]; intros others self.
  { simpl. by destruct one_shot. }
  rewrite resample_loop_cons.
  pose proof (tick_timer (with_timer self timer) timestamp
                (default (mkMeanwhile [] []) (head others))) as Htimer.
  pose proof (tick_raises (with_timer self timer) timestamp
                (default (mkMeanwhile [] []) (head others))) as Hraises.
  destruct (tick _ _ _) as [[[exceptions|e] after] calls]; simpl in Htimer, Hraises.
  - destruct (decide (exceptions = ∅)) as [Hnone|Hsome].
    + destruct one_shot; [exact Htimer|].
      specialize (IH (tail others) after).
      destruct (resample_loop false timer (tail others) after) as [[outcome later] more].
      destruct outcome as [|exceptions'|e]; [exact IH| |].
      * destruct IH as (Hne & consumed & timestamp' & ->).
        split; [exact Hne|]. by exists (timestamp :: consumed), timestamp'.
      * destruct IH as (-> & (consumed & timestamp' & ->) & m & source & sink & Hm & Hadd).
        split; [reflexivity|]. split; [by exists (timestamp :: consumed), timestamp'|].
        exists m, source, sink. split; [|exact Hadd].
        destruct others as [|m' others]; [by apply elem_of_nil in Hm | by right].
    + split; [exact Hsome|]. exists [], timestamp. by rewrite Htimer.
  - destruct (Hraises e eq_refl) as (-> & source & sink & Hadd).
    split; [reflexivity|]. split; [exists [], timestamp; by rewrite Htimer|].
    destruct others as [|m others]; [by apply elem_of_nil in Hadd|].
    exists m, source, sink. split; [by left | exact Hadd].
Qed.

(** With nothing registered, a call that is not [add_timeseries] changes
    nothing. *)
Lemma call_empty (self : t) (c : Call) :
  _resamplers self = ∅ → adds_nothing c → call self c = self.
Proof.
  intros Hempty Hc. destruct c as [source sink|source| |source ev]; simpl; try done.
  - unfold remove_timeseries. by rewrite Hempty.
  - unfold stop. rewrite Hempty, dict_map_empty, <- Hempty. apply with_resamplers_same.
  - unfold dict.alter. rewrite Hempty, dict_map_empty, <- Hempty.
    apply with_resamplers_same.
Qed.

Lemma calls_empty (self : t) (calls : list Call) :
  _resamplers self = ∅ → Forall adds_nothing calls → foldl call self calls = self.
Proof.
  intros Hempty Hall. induction Hall as [|c calls Hc Hall IH]; [reflexivity|].
  simpl. by rewrite call_empty.
Qed.

Lemma tick_empty (self : t) (timestamp : Z) (others : Meanwhile) :
  _resamplers self = ∅ →
  Forall adds_nothing (before_gather others) →
  Forall adds_nothing (during_gather others) →
  tick self timestamp others = (Ok ∅, self, []).
Proof.
  intros Hempty Hbefore Hduring. rewrite tick_unfold.
  rewrite (calls_empty self _ Hempty Hbefore). rewrite Hempty.
  unfold gather. rewrite dict_map_empty. cbn [fst snd].
  rewrite <- Hempty, with_resamplers_same.
  rewrite (calls_empty self _ Hempty Hduring). by rewrite Hempty.
Qed.

(** With nothing registered the loop does nothing but consume ticks. *)
Lemma resample_loop_empty (one_shot : bool) (timer : list Z)
    (others : list Meanwhile) (self : t) :
  _resamplers self = ∅ →
  Forall adds_nothing (calls_of others) →
  resample_loop one_shot timer others self =
  (Returns, with_timer self (if one_shot then tail timer else []), []).
Proof.
  revert others self.
  induction timer as [|timestamp timer IH]; intros others self Hempty Hall;
    [by destruct one_shot|].
  apply Forall_calls_of in Hall as (Hbefore & Hduring & Hlater).
  rewrite resample_loop_cons.
  rewrite (tick_empty (with_timer self timer)) by assumption.
  rewrite decide_True by reflexivity.
  destruct one_shot; [reflexivity|].
  by rewrite (IH (tail others) (with_timer self timer) Hempty Hlater).
Qed.

End LoopOutcome.

(** The sample [resample] returns carries the timestamp it was asked for. *)
Lemma helper_resample_timestamp (self : _ResamplingHelper.t) (t : Z) (sample : Sample) :
  (_ResamplingHelper.resample self t).1.1 = Ok sample → timestamp sample = t.
Proof.
  unfold _ResamplingHelper.resample.
  destruct (_ResamplingHelper.threshold_at self t); [|discriminate]. simpl.
  destruct (_ResamplingHelper.popleft_outdated _ _); simpl; [by intros [= <-]|].
  destruct (_ResamplingHelper._resampling_function self _ _); simpl;
    [by intros [= <-] | discriminate].
Qed.

(** A sink call made by [resample] is for the helper's own source, with a
    sample that carries the timestamp of the call. *)
Lemma streaming_sink_call (r : _StreamingHelper.t) (t : Z) (source : Source)
    (sample : Sample) :
  SinkCall source sample ∈ (_StreamingHelper.resample r t).2 →
  source = _StreamingHelper._source r ∧ timestamp sample = t ∧
  _StreamingHelper._receiving_task r = Pending.
Proof.
  unfold _StreamingHelper.resample.
  destruct (_StreamingHelper._receiving_task r) eqn:Htask; simpl;
    try (intros Hin; by apply elem_of_nil in Hin).
  pose proof (helper_resample_timestamp (_StreamingHelper._helper r) t) as Hts.
  pose proof (helper_resample_calls (_StreamingHelper._helper r) t
                (SinkCall source sample)) as Hcalls.
  destruct (_ResamplingHelper.resample _ t) as [[[sample'|e] helper] calls];
    simpl in *; intros Hin.
  - apply elem_of_app in Hin as [Hin|Hin].
    + destruct (Hcalls Hin) as [Heq _]. discriminate.
    + apply list_elem_of_singleton in Hin. injection Hin as -> ->.
      by rewrite (Hts sample' eq_refl).
  - destruct (Hcalls Hin) as [Heq _]. discriminate.
Qed.

(** X11.  How [Resampler.resample] ends.  The call returns only when the
    timer ends or, with [one_shot], after its first tick; otherwise it
    raises at a tick of the timer, leaving the later ticks.  What it
    raises is [ResamplingError], with a mapping that is never empty, or
    the [IndexError] of the comprehension, and this one only when other
    tasks called [add_timeseries] while a [gather] was awaited. *)
Theorem resample_ends (self : Resampler.t) (one_shot : bool) (others : list Meanwhile) :
  let '(outcome, self', _) := Resampler.resample self one_shot others in
  match outcome with
  | Returns =>
      Resampler._timer self' =
      if one_shot then tail (Resampler._timer self) else []
  | RaisesResamplingError exceptions =>
      exceptions ≠ ∅ ∧
      ∃ consumed t,
        Resampler._timer self = consumed ++ t :: Resampler._timer self'
  | Raises e =>
      e = IndexError ∧
      (∃ consumed t,
         Resampler._timer self = consumed ++ t :: Resampler._timer self') ∧
      ∃ m source sink, m ∈ others ∧ AddTimeseries source sink ∈ during_gather m
  end.
Proof.
  unfold Resampler.resample.
  apply (resample_loop_outcome one_shot (Resampler._timer self) others self).
Qed.

(** X12.  Nothing registered.  On a [Resampler] without registrations,
    as long as no other task calls [add_timeseries], [resample] never
    raises and calls no sink and no resampling function: it consumes one
    tick with [one_shot], and every tick of the timer without. *)
Theorem resample_nothing_registered (self : Resampler.t) (one_shot : bool)
    (others : list Meanwhile) :
  Resampler._resamplers self = ∅ →
  Forall adds_nothing (calls_of others) →
  Resampler.resample self one_shot others =
  (Returns,
   Resampler.with_timer self
     (if one_shot then tail (Resampler._timer self) else []),
   []).
Proof.
  intros Hempty Hall. unfold Resampler.resample. by apply resample_loop_empty.
Qed.

Lemma resample_nothing_registered_example :
  let self := Resampler.__init__ 1 average 3 [10; 11; 12] in
  let others := [mkMeanwhile [Stop] [RemoveTimeseries 7%nat]] in
  Resampler._resamplers self = ∅ ∧
  Forall adds_nothing (calls_of others) ∧
  Resampler.resample self false others = (Returns, Resampler.with_timer self [], []).
Proof.
  intros self others.
  assert (Hempty : Resampler._resamplers self = ∅) by reflexivity.
  assert (Hall : Forall adds_nothing (calls_of others)) by (repeat constructor).
  split; [exact Hempty|]. split; [exact Hall|].
  exact (resample_nothing_registered self false others Hempty Hall).
Defined.

(** A helper whose receiving task is done stays as it is under every call
    but the [remove_timeseries] of its source. *)
Lemma call_dead (self : Resampler.t) (c : Call) (source : Source)
    (r : _StreamingHelper.t) :
  done (_StreamingHelper._receiving_task r) = true →
  keeps source c →
  Resampler._resamplers self !! source = Some r →
  Resampler._resamplers (Resampler.call self c) !! source = Some r.
Proof.
  intros Hdone Hc Hr. destruct c as [other sink|other| |other ev]; simpl.
  - unfold Resampler.add_timeseries.
    destruct (Resampler._resamplers self !! other) eqn:Ho; simpl; [exact Hr|].
    rewrite dict_lookup_setitem_ne; [exact Hr|]. intros ->. congruence.
  - unfold Resampler.remove_timeseries.
    destruct (Resampler._resamplers self !! other) eqn:Ho; simpl; [|exact Hr].
    rewrite dict_lookup_delitem_ne; [exact Hr|]. intros ->. by apply Hc.
  - rewrite dict_lookup_map, Hr. simpl. by rewrite stop_done.
  - rewrite dict_lookup_alter, Hr. case_decide; [|reflexivity].
    simpl. by rewrite receive_samples_done.
Qed.

Lemma calls_dead (self : Resampler.t) (calls : list Call) (source : Source)
    (r : _StreamingHelper.t) :
  done (_StreamingHelper._receiving_task r) = true →
  Forall (keeps source) calls →
  Resampler._resamplers self !! source = Some r →
  Resampler._resamplers (foldl Resampler.call self calls) !! source = Some r.
Proof.
  intros Hdone Hall. revert self.
  induction Hall as [|c calls Hc Hall IH]; intros self Hr; [exact Hr|].
  simpl. apply IH. by apply call_dead.
Qed.

Lemma keeps_registrations_keeps (source : Source) (calls : list Call) :
  Forall keeps_registrations calls → Forall (keeps source) calls.
Proof.
  intros Hall. eapply Forall_impl; [exact Hall|].
  intros [| | |]; simpl; try done; intros _; discriminate.
Qed.

(** X13.  A dead source fails every call.  While a source whose receiving
    task is done stays registered, and the exception it ended with, if any,
    is an [Exception] or a [CancelledError], every call of [resample] that
    gets a tick raises [ResamplingError] at that first tick, with the error
    of that source under its key, and leaves its helper as it was;
    provided other tasks neither remove that source before the [gather]
    of the tick nor add or remove a registration while it is awaited. *)
Theorem dead_source_fails_every_call (self : Resampler.t) (source : Source)
    (r : _StreamingHelper.t) (one_shot : bool) (t : Z) (timer : list Z)
    (others : list Meanwhile) :
  let error :=
    match _StreamingHelper._receiving_task r with
    | Failed e => e
    | Cancelled => CancelledError
    | _ => SourceStoppedError (_StreamingHelper._source r)
    end in
  let first := default (mkMeanwhile [] []) (head others) in
  Resampler._resamplers self !! source = Some r →
  done (_StreamingHelper._receiving_task r) = true →
  is_exception error = true →
  Forall (keeps source) (before_gather first) →
  Forall keeps_registrations (during_gather first) →
  let '(outcome, self', _) :=
    Resampler.resample (Resampler.with_timer self (t :: timer)) one_shot others in
  ∃ exceptions,
    outcome = RaisesResamplingError exceptions ∧
    exceptions !! source = Some error ∧
    Resampler._timer self' = timer ∧
    Resampler._resamplers self' !! source = Some r.
Proof.
  intros error first Hr Hdone Herror Hbefore Hduring. unfold Resampler.resample.
  change (Resampler._timer (Resampler.with_timer self (t :: timer))) with (t :: timer).
  rewrite resample_loop_cons, with_timer_twice. fold first.
  destruct (tick_exceptions (Resampler.with_timer self timer) t first Hduring)
    as (exceptions & Hex & Hspec).
  pose proof (tick_timer (Resampler.with_timer self timer) t first) as Htimer.
  assert (Hbefore' :
    Resampler._resamplers
      (foldl Resampler.call (Resampler.with_timer self timer) (before_gather first))
      !! source = Some r).
  { by apply calls_dead. }
  assert (Hafter : Resampler._resamplers
                     (Resampler.tick (Resampler.with_timer self timer) t first).1.2
                     !! source = Some r).
  { rewrite tick_unfold. cbn [fst snd].
    apply calls_dead; [exact Hdone | by apply keeps_registrations_keeps |].
    cbn [Resampler._resamplers Resampler.with_resamplers].
    rewrite gather_resamplers, Hbefore'. simpl.
    by rewrite streaming_resample_done. }
  assert (Hfail : exceptions !! source = Some error).
  { apply Hspec. split; [|exact Herror]. exists r. split; [exact Hbefore'|].
    by rewrite streaming_resample_done. }
  destruct (Resampler.tick _ _ _) as [[result after] calls].
  simpl in Hex, Htimer, Hafter. subst result.
  rewrite decide_False; last first.
  { intros ->. by rewrite lookup_empty in Hfail. }
  by exists exceptions.
Qed.

Lemma dead_source_fails_every_call_example :
  let t := 63800000000000000 in
  let self :=
    foldl Resampler.call (Resampler.__init__ 1 average 3 [])
      [AddTimeseries 7%nat (λ _, Ok tt); ReceivingTask 7%nat StopAsyncIteration] in
  let others := [mkMeanwhile [AddTimeseries 8%nat (λ _, Ok tt)] [Stop]] in
  ∃ exceptions,
    (Resampler.resample (Resampler.with_timer self [t; t + 1000000]) false others).1.1 =
      RaisesResamplingError exceptions ∧
    exceptions !! 7%nat = Some (SourceStoppedError 7%nat).
Proof.
  intros t self others.
  assert (Hr : Resampler._resamplers self !! 7%nat =
               Some (_StreamingHelper.with_task
                       (_StreamingHelper.__init__
                          (_ResamplingHelper.__init__ 1 3 average) 7%nat (λ _, Ok tt))
                       Finished)) by (vm_compute; reflexivity).
  assert (Hbefore : Forall (keeps 7%nat) [AddTimeseries 8%nat (λ _ : Sample, Ok tt)]).
  { repeat constructor. discriminate. }
  assert (Hduring : Forall keeps_registrations [Stop]) by (repeat constructor).
  pose proof (dead_source_fails_every_call self 7%nat _ false t [t + 1000000] others
                Hr eq_refl eq_refl Hbefore Hduring) as H.
  destruct (Resampler.resample (Resampler.with_timer self [t; t + 1000000]) false others)
    as [[outcome self'] calls].
  destruct H as (exceptions & Hout & Hex & _).
  exists exceptions. split; [exact Hout | exact Hex].
Defined.

(** X14.  Where samples are sent.  Every sink call made in the course of
    [resample] carries the timestamp of a tick of the timer, and is for
    the source of a helper that was registered at the start with a
    receiving task that was not done, or for a source that another task
    added in the meantime. *)
Theorem sink_calls_of_loop (one_shot : bool) (timer : list Z)
    (others : list Meanwhile) (self : Resampler.t) (source : Source)
    (sample : Sample) :
  SinkCall source sample ∈ (Resampler.resample_loop one_shot timer others self).2 →
  timestamp sample ∈ timer ∧
  ((∃ key r,
      Resampler._resamplers self !! key = Some r ∧
      _StreamingHelper._source r = source ∧
      _StreamingHelper._receiving_task r = Pending) ∨
   (∃ sink, AddTimeseries source sink ∈ calls_of others)).
Proof.
  set (origin := λ r : _StreamingHelper.t,
         (∃ key r0,
            Resampler._resamplers self !! key = Some r0 ∧
            _StreamingHelper._source r0 = _StreamingHelper._source r ∧
            _StreamingHelper._receiving_task r0 = Pending) ∨
         (∃ sink, AddTimeseries (_StreamingHelper._source r) sink ∈ calls_of others)).
  set (Inv := λ s : Resampler.t,
         ∀ key r,
           Resampler._resamplers s !! key = Some r →
           _StreamingHelper._receiving_task r = Pending → origin r).
  intros Hin.
  destruct (resample_loop_invariant Inv (λ c, c ∈ calls_of others)) with
    (one_shot := one_shot) (timer := timer) (others := others) (self := self)
    as [_ Hevents].
  - intros s c Hc Hinv key r.
    destruct c as [other sink|other| |other ev]; simpl.
    + unfold Resampler.add_timeseries.
      destruct (Resampler._resamplers s !! other) eqn:Ho; simpl; [apply Hinv|].
      destruct (decide (key = other)) as [->|Hne].
      * rewrite dict_lookup_setitem_eq. intros [= <-] _. right. simpl. eauto.
      * rewrite dict_lookup_setitem_ne by exact Hne. apply Hinv.
    + unfold Resampler.remove_timeseries.
      destruct (Resampler._resamplers s !! other) eqn:Ho; simpl; [|apply Hinv].
      destruct (decide (key = other)) as [->|Hne].
      * by rewrite dict_lookup_delitem_eq.
      * rewrite dict_lookup_delitem_ne by exact Hne. apply Hinv.
    + rewrite dict_lookup_map. intros Hr Htask.
      apply fmap_Some in Hr as (r0 & Hr0 & ->).
      by apply stop_not_pending in Htask.
    + rewrite dict_lookup_alter. case_decide; [|apply Hinv].
      intros Hr Htask. apply fmap_Some in Hr as (r0 & Hr0 & ->).
      apply receive_samples_pending in Htask.
      pose proof (receive_samples_frame r0 ev) as (Hsrc & _).
      unfold origin. rewrite Hsrc. by eapply Hinv.
  - intros s timestamp Hinv key r. simpl. rewrite dict_lookup_map.
    intros Hr Htask. apply fmap_Some in Hr as (r0 & Hr0 & ->).
    pose proof (streaming_resample_frame r0 timestamp) as (Hsrc & Htask' & _).
    simpl in Hsrc, Htask'. unfold origin. rewrite Hsrc. rewrite Htask' in Htask.
    by eapply Hinv.
  - by intros s timer' Hinv.
  - by apply Forall_forall.
  - intros key r Hr Htask. left. by exists key, r.
  - destruct (Hevents _ Hin) as (s & timestamp & Hinv & Ht & Hev).
    apply gather_calls in Hev as (key & r & Hr & Hev).
    apply streaming_sink_call in Hev as (-> & -> & Htask).
    split; [exact Ht|]. exact (Hinv key r Hr Htask).
Qed.

Lemma sink_calls_of_loop_example :
  let t := 63800000000000000 in
  let self :=
    Resampler.call (Resampler.__init__ 1 average 3 [])
      (AddTimeseries 7%nat (λ _, Ok tt)) in
  let others := [mkMeanwhile [AddTimeseries 8%nat (λ _, Ok tt)] []] in
  SinkCall 8%nat (mkSample t None)
    ∈ (Resampler.resample_loop true [t; t + 1000000] others self).2 ∧
  timestamp (mkSample t None) ∈ [t; t + 1000000].
Proof.
  intros t self others.
  assert (Hin : SinkCall 8%nat (mkSample t None)
                  ∈ (Resampler.resample_loop true [t; t + 1000000] others self).2).
  { vm_compute. right. left. }
  split; [exact Hin|].
  exact (proj1 (sink_calls_of_loop true [t; t + 1000000] others self 8%nat _ Hin)).
Defined.

(** ** A source that is removed and added again *)

(** Whatever happens to a helper, its source stays the same. *)
Lemma run_source (self : _StreamingHelper.t)
    (activities : list _StreamingHelper.Activity) :
  _StreamingHelper._source (_StreamingHelper.run self activities).1 =
    _StreamingHelper._source self.
Proof.
  revert self. induction activities as [|a activities IH]; intros self; [done|].
  rewrite run_cons_fst, IH. destruct a as [ev|timestamp|]; simpl.
  - by pose proof (receive_samples_frame self ev) as (-> & _).
  - pose proof (streaming_resample_frame self timestamp) as (Hs & _).
    by destruct (_StreamingHelper.resample self timestamp) as [[outcome self'] calls].
  - done.
Qed.

(** X9.  Removing and adding again starts afresh, and revives nothing.
    Whatever the state of its registration, a source that is removed and
    added again has a new helper with the new sink, a new receiving task
    and an empty window, the other registrations being untouched.  Once
    the new task has pulled [events] from the source, the window holds the
    valid samples among them and nothing of the old window; and when the
    source ends or raises at once, as an iterator that is exhausted or
    broken does, [resample] fails again, with [SourceStoppedError] or with
    the error of the source. *)
Theorem remove_and_add_again (self : Resampler.t) (source : Source) (sink : Sink)
    (events : list SourceEvent) (t : Z) :
  let self' :=
    (Resampler.add_timeseries (Resampler.remove_timeseries self source).2
       source sink).2 in
  let fresh :=
    _StreamingHelper.__init__
      (_ResamplingHelper.__init__ (Resampler._resampling_period_s self)
         (Resampler._max_data_age_in_periods self)
         (Resampler._resampling_function self))
      source sink in
  let r := (_StreamingHelper.run fresh (_StreamingHelper.SourcePulled <$> events)).1 in
  Resampler._resamplers self' !! source = Some fresh ∧
  (∀ other, other ≠ source →
     Resampler._resamplers self' !! other = Resampler._resamplers self !! other) ∧
  _ResamplingHelper._buffer (_StreamingHelper._helper r) =
    filter (λ s, has_number s = true) (received events) ∧
  match task_after events with
  | Finished =>
      _StreamingHelper.resample r t = (Raise (SourceStoppedError source), r, [])
  | Failed e => _StreamingHelper.resample r t = (Raise e, r, [])
  | Pending | Cancelled => _StreamingHelper._receiving_task r = Pending
  end.
Proof.
  intros self' fresh r.
  assert (Hreg : Resampler._resamplers self' !! source = Some fresh ∧
            ∀ other, other ≠ source →
              Resampler._resamplers self' !! other = Resampler._resamplers self !! other).
  { subst self' fresh.
    unfold Resampler.add_timeseries, Resampler.remove_timeseries.
    destruct (Resampler._resamplers self !! source) as [r0|] eqn:Hl; simpl.
    - rewrite dict_lookup_delitem_eq. simpl. rewrite dict_lookup_setitem_eq.
      split; [reflexivity|]. intros other Hne.
      by rewrite dict_lookup_setitem_ne, dict_lookup_delitem_ne.
    - rewrite Hl. simpl. rewrite dict_lookup_setitem_eq.
      split; [reflexivity|]. intros other Hne. by rewrite dict_lookup_setitem_ne. }
  destruct Hreg as [Hnew Hothers].
  split; [exact Hnew|]. split; [exact Hothers|].
  destruct (run_receiving fresh events eq_refl) as [Hbuf Htask]. fold r in Hbuf, Htask.
  split; [exact Hbuf|].
  assert (Hsrc : _StreamingHelper._source r = source) by apply run_source.
  destruct (task_after events) as [| |e|] eqn:Hafter; try exact Htask.
  - rewrite streaming_resample_done by (by rewrite Htask). by rewrite Htask, Hsrc.
  - rewrite streaming_resample_done by (by rewrite Htask). by rewrite Htask.
  - exfalso. clear -Hafter. induction events as [|[?| |?] events IH]; try done.
Qed.

(** ** [TimeoutParam] and [LastResponse] *)

Section Battery.
Local Open Scope Q_scope.

Lemma py_min_bounds (a b lo : Q) : lo <= a → lo <= b → lo <= py_min a b ∧ py_min a b <= b.
Proof.
  unfold py_min. intros Ha Hb.
  destruct (Qlt_le_dec b a) as [Hlt|Hle].
  - split; [exact Hb | apply Qle_refl].
  - split; [exact Ha | exact Hle].
Qed.

Lemma timeout_update_bounded (param : TimeoutParam.t) (now : Q) :
  1 <= TimeoutParam.duration_s param ∧
  TimeoutParam.duration_s param <= TimeoutParam.max_timeout_duration_s →
  let param' := (TimeoutParam.update param now).2 in
  1 <= TimeoutParam.duration_s param' ∧
  TimeoutParam.duration_s param' <= TimeoutParam.max_timeout_duration_s.
Proof.
  intros [Hlo Hhi]. unfold TimeoutParam.update.
  destruct (Qlt_le_dec _ now); simpl; [|done].
  apply py_min_bounds; [lra|]. unfold TimeoutParam.max_timeout_duration_s. lra.
Qed.

Lemma update_bounded (self : LastResponse.t) (component_id : Z)
    (result : BatteryResult) (now : Q) :
  bounded self → bounded (LastResponse.update self component_id result now).2.
Proof.
  intros Hb. unfold LastResponse.update.
  destruct (LastResponse.invalid_battery_result result).
  - destruct (LastResponse._components self !! component_id) as [param|] eqn:Hl.
    + pose proof (timeout_update_bounded param now (Hb _ _ Hl)) as Hp.
      destruct (TimeoutParam.update param now) as [d param']. simpl in Hp.
      intros id p. simpl. destruct (decide (component_id = id)) as [<-|Hne].
      * rewrite lookup_insert_eq. by intros [= <-].
      * rewrite lookup_insert_ne by exact Hne. apply Hb.
    + intros id p. simpl. destruct (decide (component_id = id)) as [<-|Hne].
      * rewrite lookup_insert_eq. intros [= <-]. simpl.
        unfold TimeoutParam.max_timeout_duration_s. split; lra.
      * rewrite lookup_insert_ne by exact Hne. apply Hb.
  - destruct (LastResponse._components self !! component_id) as [param|] eqn:Hl;
      [|exact Hb].
    intros id p. simpl. destruct (decide (component_id = id)) as [<-|Hne].
    + by rewrite lookup_delete_eq.
    + rewrite lookup_delete_ne by exact Hne. apply Hb.
Qed.

Lemma updates_bounded (responses : list (Z * BatteryResult * Q))
    (self self' : LastResponse.t) :
  bounded self → LastResponse.updates self responses = Some self' → bounded self'.
Proof.
  revert self. induction responses as [|[[id result] now] responses IH];
    intros self Hb; simpl.
  - by intros [= <-].
  - pose proof (update_bounded self id result now Hb) as Hb'.
    destruct (LastResponse.update self id result now) as [[d|k] self1]; [|discriminate].
    by apply IH.
Qed.

(** X15.  The timeout backs off within bounds.  An [update] of a
    [TimeoutParam] that has expired doubles its duration, up to the
    maximum of 30 seconds, starts it at [now] and returns the new
    duration; an [update] before the expiration returns 0 and changes
    nothing.  The timeouts a [LastResponse] holds after any responses are
    between 1 and 30 seconds. *)
Theorem timeout_backs_off :
  (∀ (param : TimeoutParam.t) (now : Q),
     let '(returned, param') := TimeoutParam.update param now in
     if TimeoutParam.is_expired param now then
       returned = py_min (TimeoutParam.duration_s param * 2) 30 ∧
       TimeoutParam.duration_s param' = returned ∧
       TimeoutParam.expiration_time param' = now + returned
     else returned = 0 ∧ param' = param) ∧
  (∀ (responses : list (Z * BatteryResult * Q)) (self : LastResponse.t)
     (component_id : Z) (param : TimeoutParam.t),
     LastResponse.updates LastResponse.__init__ responses = Some self →
     LastResponse._components self !! component_id = Some param →
     1 <= TimeoutParam.duration_s param ∧ TimeoutParam.duration_s param <= 30).
Proof.
  split.
  - intros param now. unfold TimeoutParam.update, TimeoutParam.is_expired.
    by destruct (Qlt_le_dec _ now).
  - intros responses self component_id param Hups Hl.
    eapply (updates_bounded responses LastResponse.__init__ self); [|exact Hups|exact Hl].
    intros id p. simpl. by rewrite lookup_empty.
Qed.

Lemma timeout_backs_off_example :
  let responses := [(3%Z, ERROR, 0); (3%Z, ERROR, 5); (3%Z, UNKNOWN_RESULT, 10)] in
  ∃ self param,
    LastResponse.updates LastResponse.__init__ responses = Some self ∧
    LastResponse._components self !! 3%Z = Some param ∧
    1 <= TimeoutParam.duration_s param ∧ TimeoutParam.duration_s param <= 30.
Proof.
  intros responses.
  destruct (LastResponse.updates LastResponse.__init__ responses) as [self|] eqn:Hups;
    [|vm_compute in Hups; discriminate Hups].
  destruct (LastResponse._components self !! 3%Z) as [param|] eqn:Hl.
  - exists self, param. split; [reflexivity|]. split; [exact Hl|].
    exact (proj2 timeout_backs_off responses self 3%Z param Hups Hl).
  - exfalso. vm_compute in Hups. injection Hups as <-.
    vm_compute in Hl. discriminate Hl.
Defined.

(** X16.  A failure blocks the component.  After any responses, reporting
    [ERROR] or [UNKNOWN_RESULT] for a component at [now] does not raise,
    and [is_correct] is then false for that component at [now]. *)
Theorem failure_blocks (responses : list (Z * BatteryResult * Q))
    (self : LastResponse.t) (component_id : Z) (result : BatteryResult) (now : Q) :
  LastResponse.updates LastResponse.__init__ responses = Some self →
  LastResponse.invalid_battery_result result = true →
  let '(returned, self') := LastResponse.update self component_id result now in
  (∃ duration_s, returned = Returned duration_s) ∧
  LastResponse.is_correct self' component_id now = false.
Proof.
  intros Hups Hinv.
  assert (Hb : bounded self).
  { eapply updates_bounded; [|exact Hups]. intros id p. simpl. by rewrite lookup_empty. }
  unfold LastResponse.update, LastResponse.is_correct. rewrite Hinv.
  destruct (LastResponse._components self !! component_id) as [param|] eqn:Hl.
  - destruct (Hb _ _ Hl) as [Hlo Hhi].
    unfold TimeoutParam.update.
    destruct (Qlt_le_dec (TimeoutParam.expiration_time param) now) as [Hexp|Hnot]; simpl.
    + rewrite lookup_insert_eq. split; [eauto|].
      unfold TimeoutParam.is_expired. simpl.
      destruct (Qlt_le_dec _ now) as [Habs|_]; [|reflexivity].
      exfalso.
      destruct (py_min_bounds (TimeoutParam.duration_s param * 2)
                  TimeoutParam.max_timeout_duration_s 1) as [Hmin _];
        [lra | unfold TimeoutParam.max_timeout_duration_s; lra |].
      lra.
    + rewrite lookup_insert_eq. split; [eauto|].
      unfold TimeoutParam.is_expired.
      destruct (Qlt_le_dec _ now) as [Habs|_]; [|reflexivity].
      exfalso. lra.
  - simpl. rewrite lookup_insert_eq. split; [eauto|].
    unfold TimeoutParam.is_expired. simpl.
    destruct (Qlt_le_dec _ now) as [Habs|_]; [|reflexivity].
    exfalso. lra.
Qed.

Lemma failure_blocks_example :
  let responses := [(3%Z, ERROR, 0); (3%Z, ERROR, 5)] in
  ∃ self,
    LastResponse.updates LastResponse.__init__ responses = Some self ∧
    LastResponse.is_correct (LastResponse.update self 3%Z ERROR 6).2 3%Z 6 = false.
Proof.
  intros responses.
  destruct (LastResponse.updates LastResponse.__init__ responses) as [self|] eqn:Hups;
    [|vm_compute in Hups; discriminate Hups].
  exists self. split; [reflexivity|].
  pose proof (failure_blocks responses self 3%Z ERROR 6 Hups eq_refl) as H.
  destruct (LastResponse.update self 3%Z ERROR 6) as [returned self'].
  exact (proj2 H).
Defined.

(** X17.  A good response unblocks, or raises.  Reporting a result that is
    neither [ERROR] nor [UNKNOWN_RESULT] for a component that has a
    timeout returns 0 and removes the timeout, so that [is_correct] holds
    for it at any time, the other components keeping theirs; for a
    component without a timeout the [del] raises [KeyError] and nothing
    changes.  So the first response of a component, when it is a good
    one, raises. *)
Theorem good_response_unblocks_or_raises (self : LastResponse.t) (component_id : Z)
    (result : BatteryResult) (now : Q) :
  LastResponse.invalid_battery_result result = false →
  let '(returned, self') := LastResponse.update self component_id result now in
  match LastResponse._components self !! component_id with
  | Some _ =>
      returned = Returned 0 ∧
      (∀ now', LastResponse.is_correct self' component_id now' = true) ∧
      (∀ other, other ≠ component_id →
         LastResponse._components self' !! other =
         LastResponse._components self !! other)
  | None => returned = KeyError component_id ∧ self' = self
  end.
Proof.
  intros Hvalid. unfold LastResponse.update, LastResponse.is_correct.
  rewrite Hvalid.
  destruct (LastResponse._components self !! component_id) as [param|] eqn:Hl;
    [|done].
  simpl. split; [reflexivity|]. split.
  - intros now'. by rewrite lookup_delete_eq.
  - intros other Hne. by rewrite lookup_delete_ne.
Qed.

Lemma good_response_unblocks_or_raises_example :
  SUCCESS = SUCCESS ∧
  LastResponse.update LastResponse.__init__ 3%Z SUCCESS 0 =
    (KeyError 3%Z, LastResponse.__init__).
Proof.
  split; [reflexivity|].
  pose proof (good_response_unblocks_or_raises LastResponse.__init__ 3%Z SUCCESS 0 eq_refl)
    as H.
  destruct (LastResponse.update LastResponse.__init__ 3%Z SUCCESS 0)
    as [returned self'] eqn:Hu.
  simpl in H. destruct H as [-> ->]. reflexivity.
Defined.

End Battery.
